(** * pdf-document-analyzer: PDF loading and the question-answering pipeline

  A shallow embedding of [utils/pdf_loader.py], [utils/qa_pipeline.py] and
  the pipeline calls of [main.py].  Python strings are modelled as
  [string] (characters are the code points below 256), exceptions as
  values of [exn], and the methods of [QAPipeline] as computations of a
  state-and-exception monad over the object's attributes and the external
  services it talks to. *)

From stdpp Require Import base list strings gmap sorting.
From Stdlib Require Import Ascii.

Local Open Scope nat_scope.

(** ** Exceptions and results *)

(** The exception classes the code raises or catches.  Every class is a
  subclass of Python's [Exception], so [except Exception] catches all of
  them; [LibraryError] stands for the classes of the third-party
  libraries. *)
Inductive exn_class : Type :=
| FileNotFoundError
| ValueError
| PlainException
| LibraryError (name : string).

Record exn : Type := Exn { exn_type : exn_class; exn_str : string }.

Global Instance exn_class_eq_dec : EqDecision exn_class.
Proof. solve_decision. Defined.
Global Instance exn_eq_dec : EqDecision exn.
Proof. solve_decision. Defined.

Inductive result (A : Type) : Type :=
| Ok (a : A)
| Raise (e : exn).
Arguments Ok {A} a.
Arguments Raise {A} e.

Definition is_ok {A} (r : result A) : bool :=
match r with Ok _ => true | Raise _ => false end.

(** ** Python string operations *)

Module PyStr.

Definition code (c : ascii) : nat := nat_of_ascii c.

Definition between (lo hi n : nat) : bool := (lo <=? n) && (n <=? hi).

(** [str.isspace] on one character: TAB..CR, FS..US, space, NEL, NBSP. *)
Definition isspace (c : ascii) : bool :=
  let n := code c in
  between 9 13 n || between 28 31 n || (n =? 32) || (n =? 133) || (n =? 160).

Fixpoint all_space (s : string) : bool :=
  match s with
  | EmptyString => true
  | String c s' => isspace c && all_space s'
  end.

Fixpoint lstrip (s : string) : string :=
  match s with
  | EmptyString => EmptyString
  | String c s' => if isspace c then lstrip s' else s
  end.

Fixpoint rstrip (s : string) : string :=
  match s with
  | EmptyString => EmptyString
  | String c s' =>
      match rstrip s' with
      | EmptyString => if isspace c then EmptyString else String c EmptyString
      | r => String c r
      end
  end.

(** [s.strip()] *)
Definition strip (s : string) : string := rstrip (lstrip s).

(** Truth value of a string: [if s:] *)
Definition truthy (s : string) : bool :=
  match s with EmptyString => false | _ => true end.

Definition lower_char (c : ascii) : ascii :=
  let n := code c in
  if between 65 90 n || (between 192 222 n && negb (n =? 215))
  then ascii_of_nat (n + 32) else c.

(** [s.lower()] *)
Fixpoint lower (s : string) : string :=
  match s with
  | EmptyString => EmptyString
  | String c s' => String (lower_char c) (lower s')
  end.

Fixpoint drop (n : nat) (s : string) : string :=
  match n, s with
  | 0, _ => s
  | S _, EmptyString => EmptyString
  | S n', String _ s' => drop n' s'
  end.

(** [s.endswith(suffix)] *)
Definition endswith (s suffix : string) : bool :=
  (String.length suffix <=? String.length s) &&
  String.eqb (drop (String.length s - String.length suffix) s) suffix.

(** [s[:n]] *)
Fixpoint slice_to (n : nat) (s : string) : string :=
  match n, s with
  | 0, _ => EmptyString
  | S _, EmptyString => EmptyString
  | S n', String c s' => String c (slice_to n' s')
  end.

(** The one-character string of a line feed. *)
Definition newline : string := String "010" EmptyString.

(** [s * n] for a one-character string *)
Fixpoint repeat_char (c : ascii) (n : nat) : string :=
  match n with
  | 0 => EmptyString
  | S n' => String c (repeat_char c n')
  end.

End PyStr.

(** ** utils/pdf_loader.py *)

Module PDFLoader.

(** What PyPDF2 gives for a file: [PdfReader(file)] fails or yields the
    pages, and [extract_text] of a page fails or yields its text. *)
Definition page : Type := result string.
Definition pdf_file : Type := result (list page).

(** The file system as [load_pdf] sees it: a path that exists maps to
    what opening and reading it yields. *)
Definition file_system : Type := string -> option pdf_file.

Record t : Type := {
  chunk_size : nat;
  chunk_overlap : nat;
  (** [self.text_splitter.split_text] *)
  split_text : string -> result (list string)
}.

(** The separators given to the splitter, line 33. *)
Definition separators : list string :=
  [PyStr.newline +:+ PyStr.newline; PyStr.newline; " "; ""].

(** [__init__]: the splitter class is third-party code and is taken as an
    argument; it receives the chunk size, the overlap and the separators. *)
Definition init
    (RecursiveCharacterTextSplitter :
       nat -> nat -> list string -> string -> result (list string))
    (chunk_size chunk_overlap : nat) : t :=
  {| chunk_size := chunk_size;
     chunk_overlap := chunk_overlap;
     split_text :=
       RecursiveCharacterTextSplitter chunk_size chunk_overlap separators |}.

(** The loop of lines 64-68: text of the pages seen so far. *)
Fixpoint extract_pages (pages : list page) (text_content : string)
  : result string :=
  match pages with
  | [] => Ok text_content
  | p :: rest =>
      match p with
      | Raise e => Raise e
      | Ok page_text =>
          if PyStr.truthy page_text
          then extract_pages rest (text_content +:+ page_text +:+ PyStr.newline)
          else extract_pages rest text_content
      end
  end.

(** The body of the [try] block, lines 57-79. *)
Definition load_pdf_body (self : t) (file : pdf_file) : result (list string) :=
  match file with
  | Raise e => Raise e
  | Ok pages =>
      if length pages =? 0 then Raise (Exn ValueError "PDF file is empty")
      else
        match extract_pages pages "" with
        | Raise e => Raise e
        | Ok text_content =>
            if negb (PyStr.truthy (PyStr.strip text_content))
            then Raise (Exn ValueError "No text content found in PDF")
            else
              match split_text self text_content with
              | Raise e => Raise e
              | Ok chunks =>
                  match chunks with
                  | [] => Raise (Exn ValueError "Failed to create text chunks")
                  | _ => Ok chunks
                  end
              end
        end
  end.

Definition load_pdf (self : t) (fs : file_system) (file_path : string)
  : result (list string) :=
  match fs file_path with
  | None => Raise (Exn FileNotFoundError ("PDF file not found: " +:+ file_path))
  | Some file =>
      if negb (PyStr.endswith (PyStr.lower file_path) ".pdf")
      then Raise (Exn ValueError ("File must be a PDF: " +:+ file_path))
      else
        match load_pdf_body self file with
        | Ok chunks => Ok chunks
        | Raise e =>
            Raise (Exn PlainException ("Error processing PDF: " +:+ exn_str e))
        end
  end.

(** [get_chunk_info]; the average size is a float and is left out. *)
Record chunk_info : Type := {
  total_chunks : nat;
  total_characters : nat
}.

Definition get_chunk_info (chunks : list string) : chunk_info :=
  match chunks with
  | [] => {| total_chunks := 0; total_characters := 0 |}
  | _ => {| total_chunks := length chunks;
            total_characters := foldr (fun c n => String.length c + n) 0 chunks |}
  end.

End PDFLoader.

(** ** The external services and the state-and-exception monad *)

(** [self.vector_store]: the Chroma store, known by its collection. *)
Record Chroma : Type := { collection_name : string }.

(** [self.qa_chain]: the chain made by [RetrievalQA.from_chain_type], with
    the retriever's store, its [search_kwargs] k and the prompt. *)
Record RetrievalQA : Type := {
  retriever : Chroma;
  search_k : nat;
  prompt : string
}.

(** A source document as [query_chain] inspects it: the attributes
    [page_content] and [content], each present or not. *)
Record document : Type := {
  page_content : option string;
  content : option string
}.

(** The dictionary a chain call returns: the keys [result] and
    [source_documents], each present or not. *)
Record chain_output : Type := {
  output_result : option string;
  output_source_documents : option (list document)
}.

(** The third-party services, as state-passing functions over a state of
    the outside world.  Each call may raise any exception. *)
Record Backend : Type := {
  World : Type;
  (** [os.getenv] *)
  getenv : string -> World -> option string;
  (** [uuid.uuid4().hex] *)
  uuid4_hex : World -> string * World;
  (** [HuggingFaceEmbeddings(model_name=...)] *)
  HuggingFaceEmbeddings : string -> World -> result unit * World;
  (** [ChatOpenAI(base_url=..., api_key=..., model=..., temperature=0.1)] *)
  ChatOpenAI : string -> string -> string -> World -> result unit * World;
  (** [Chroma.from_texts(texts=..., embedding=..., collection_name=...)] *)
  Chroma_from_texts : list string -> string -> World -> result unit * World;
  (** [RetrievalQA.from_chain_type(...)] *)
  RetrievalQA_from_chain_type : RetrievalQA -> World -> result unit * World;
  (** [self.qa_chain({"query": question})] *)
  chain_call : RetrievalQA -> string -> World -> result chain_output * World;
  (** [collection.count()] *)
  collection_count : Chroma -> World -> result nat * World;
  (** [chromadb.Client().delete_collection(name=...)] *)
  delete_collection : string -> World -> result unit * World
}.

(** The calls that contact the embedding model, the vector store or the
    language model, and whether each returned or raised. *)
Inductive call : Type :=
  | CallEmbeddings (model_name : string)
  | CallChatOpenAI
  | CallFromTexts (texts : list string) (name : string)
  | CallFromChainType (chain : RetrievalQA)
  | CallChain (chain : RetrievalQA) (question : string)
  | CallCount (store : Chroma)
  | CallDelete (name : string).

Record event : Type := Event { ev_call : call; ev_raised : option exn }.

Definition raised {A} (r : result A) : option exn :=
  match r with Ok _ => None | Raise e => Some e end.

Section Monad.
Context {B : Backend}.

Record env : Type := Env { world : World B; trace : list event }.

(** A computation on an object of type [S]: it reads and updates the
    object and the environment, and returns or raises. *)
Definition M (S A : Type) : Type := S -> env -> result A * S * env.

Definition ret {S A} (a : A) : M S A := fun s v => (Ok a, s, v).

Definition raise {S A} (e : exn) : M S A := fun s v => (Raise e, s, v).

Definition bind {S A A'} (m : M S A) (k : A -> M S A') : M S A' :=
  fun s v =>
    match m s v with
    | (Ok a, s', v') => k a s' v'
    | (Raise e, s', v') => (Raise e, s', v')
    end.

(** [try: m  except Exception as e: h e] *)
Definition try_except {S A} (m : M S A) (h : exn -> M S A) : M S A :=
  fun s v =>
    match m s v with
    | (Ok a, s', v') => (Ok a, s', v')
    | (Raise e, s', v') => h e s' v'
    end.

Definition get {S} : M S S := fun s v => (Ok s, s, v).

Definition put {S} (s' : S) : M S unit := fun _ v => (Ok tt, s', v).

(** A call to a service: it is recorded in the trace with its outcome. *)
Definition external {S A} (c : call) (f : World B -> result A * World B)
  : M S A :=
  fun s v =>
    let '(r, w') := f (world v) in
    (r, s, Env w' (trace v ++ [Event c (raised r)])).

(** Reading the outside world without calling a service. *)
Definition observe {S A} (f : World B -> A * World B) : M S A :=
  fun s v => let '(a, w') := f (world v) in (Ok a, s, Env w' (trace v)).

(** Run a method on an object held in a local variable. *)
Definition on_object {S S' A} (obj : S') (m : M S' A) : M S (A * S') :=
  fun s v =>
    match m obj v with
    | (Ok a, obj', v') => (Ok (a, obj'), s, v')
    | (Raise e, _, v') => (Raise e, s, v')
    end.

Definition lift_result {S A} (r : result A) : M S A := fun s v => (r, s, v).

End Monad.

Arguments M : clear implicits.
Arguments env : clear implicits.

Declare Scope py_scope.
Delimit Scope py_scope with py.
Notation "x <- m ;; k" := (bind m (fun x => k))
  (at level 100, m at next level, right associativity) : py_scope.
Notation "m ;;; k" := (bind m (fun _ => k))
  (at level 100, right associativity) : py_scope.

(** ** utils/qa_pipeline.py *)

Module QAPipeline.

Record t : Type := {
  vector_store : option Chroma;
  qa_chain : option RetrievalQA
}.

Definition prompt_template : string :=
  "Use the following context to answer the question at the end. 
        If you don't know the answer, just say that you don't know, don't try to make up an answer.
        
        Context: {context}
        
        Question: {question}
        
        Answer:".

(** [x or y] on optional strings: the empty string is falsy. *)
Definition or_str (x : option string) (y : option string) : option string :=
  match x with
  | Some s => if PyStr.truthy s then Some s else y
  | None => y
  end.

Definition with_default (d : string) (x : option string) : string :=
  match x with Some s => s | None => d end.

(** Lines 153 and 157: the text shown for one source. *)
Definition truncate (text : string) : string :=
  if 200 <? String.length text
  then PyStr.slice_to 200 text +:+ "..."
  else text.

(** Lines 149-158: the loop over [source_documents]. *)
Definition add_source (sources : list string) (doc : document) : list string :=
  match page_content doc with
  | Some text => sources ++ [truncate text]
  | None =>
      match content doc with
      | Some text => sources ++ [truncate text]
      | None => sources
      end
  end.

Definition format_sources (source_documents : list document) : list string :=
  foldl add_source [] source_documents.

Record QueryResult : Type := {
  answer : string;
  sources : list string;
  source_count : nat
}.

Record store_info : Type := {
  total_documents : nat;
  info_collection_name : option string
}.

Section Methods.
Context {B : Backend}.
Local Open Scope py_scope.

Definition set_vector_store (x : option Chroma) : M B t unit :=
  self <- get ;; put {| vector_store := x; qa_chain := qa_chain self |}.

Definition set_qa_chain (x : option RetrievalQA) : M B t unit :=
  self <- get ;; put {| vector_store := vector_store self; qa_chain := x |}.

(** [__init__]: the object it leaves when it does not raise. *)
Definition init (api_key llm_base_url llm_model : option string)
    (embedding_model : string) : M B unit t :=
  key <- observe (fun w => (or_str api_key (getenv B "OPENROUTER_API_KEY" w), w)) ;;
  base_url <- observe (fun w =>
    (or_str llm_base_url
       (Some (with_default "https://openrouter.ai/api/v1" (getenv B "LLM_BASE_URL" w))), w)) ;;
  model <- observe (fun w =>
    (or_str llm_model
       (Some (with_default "mistralai/mistral-7b-instruct" (getenv B "LLM_MODEL" w))), w)) ;;
  match or_str key None with
  | None =>
      raise (Exn ValueError
        "OpenRouter API key is required. Set OPENROUTER_API_KEY environment variable.")
  | Some key =>
      try_except
        (external (CallEmbeddings embedding_model)
           (HuggingFaceEmbeddings B embedding_model))
        (fun e => raise (Exn ValueError
           ("Failed to initialize embeddings: " +:+ exn_str e +:+
            ". Please ensure sentence-transformers is installed."))) ;;;
      try_except
        (external CallChatOpenAI
           (ChatOpenAI B (with_default "" base_url) key (with_default "" model)))
        (fun e => raise (Exn ValueError
           ("Failed to initialize LLM: " +:+ exn_str e +:+
            ". Please check your OpenRouter API key and model configuration."))) ;;;
      ret {| vector_store := None; qa_chain := None |}
  end.

Definition setup_qa_pipeline (chunks : list string)
  : M B t (option RetrievalQA) :=
  match chunks with
  | [] => raise (Exn ValueError "No text chunks provided")
  | _ =>
      try_except
        (hex <- observe (uuid4_hex B) ;;
         let collection_name := "pdf_qa_collection_" +:+ PyStr.slice_to 8 hex in
         external (CallFromTexts chunks collection_name)
           (Chroma_from_texts B chunks collection_name) ;;;
         set_vector_store (Some {| collection_name := collection_name |}))
        (fun e => raise (Exn ValueError
           ("Failed to create vector store: " +:+ exn_str e))) ;;;
      try_except
        (self <- get ;;
         match vector_store self with
         | None =>
             raise (Exn (LibraryError "AttributeError")
               "'NoneType' object has no attribute 'as_retriever'")
         | Some store =>
             let chain := {| retriever := store; search_k := 3;
                             prompt := prompt_template |} in
             external (CallFromChainType chain)
               (RetrievalQA_from_chain_type B chain) ;;;
             set_qa_chain (Some chain)
         end)
        (fun e => raise (Exn ValueError
           ("Failed to create QA chain: " +:+ exn_str e))) ;;;
      self <- get ;;
      ret (qa_chain self)
  end.

Definition query_chain (question : string) : M B t QueryResult :=
  self <- get ;;
  match qa_chain self with
  | None =>
      raise (Exn ValueError
        "QA pipeline not initialized. Call setup_qa_pipeline first.")
  | Some chain =>
      if negb (PyStr.truthy (PyStr.strip question))
      then raise (Exn ValueError "Question cannot be empty")
      else
        try_except
          (result <- external (CallChain chain question)
                       (chain_call B chain question) ;;
           let answer := with_default "No answer generated" (output_result result) in
           let source_documents :=
             match output_source_documents result with
             | Some docs => docs
             | None => []
             end in
           let sources := format_sources source_documents in
           ret {| answer := answer;
                  sources := sources;
                  source_count := length sources |})
          (fun e =>
             ret {| answer := "Error processing question: " +:+ exn_str e;
                    sources := [];
                    source_count := 0 |})
  end.

(** [get_vector_store_info].  The test [not self.vector_store] of line 180
    stands outside the [try]: [None] is false, and a Chroma store is true
    when its length is not zero, which [Chroma.__len__] reads from the
    count of the collection.  The count of line 186 is a second call,
    inside the [try]. *)
Definition get_vector_store_info : M B t store_info :=
  self <- get ;;
  match vector_store self with
  | None => ret {| total_documents := 0; info_collection_name := None |}
  | Some store =>
      len <- external (CallCount store) (collection_count B store) ;;
      if len =? 0
      then ret {| total_documents := 0; info_collection_name := None |}
      else
        try_except
          (count <- external (CallCount store) (collection_count B store) ;;
           ret {| total_documents := count;
                  info_collection_name := Some (collection_name store) |})
          (fun _ => ret {| total_documents := 0; info_collection_name := None |})
  end.

(** [clear_vector_store].  The test [self.vector_store] of line 197 stands
    outside the [try] and reads the count of the collection as above; the
    deletion and the two resets are inside it. *)
Definition clear_vector_store : M B t unit :=
  self <- get ;;
  match vector_store self with
  | None => ret tt
  | Some store =>
      len <- external (CallCount store) (collection_count B store) ;;
      if len =? 0
      then ret tt
      else
        try_except
          (external (CallDelete (collection_name store))
             (delete_collection B (collection_name store)) ;;;
           set_vector_store None ;;;
           set_qa_chain None)
          (fun _ => ret tt)
  end.

End Methods.

End QAPipeline.

(** ** main.py: the calls into the pipeline *)

Module Main.

Record session : Type := {
  qa_pipeline : option QAPipeline.t;
  pdf_loaded : bool;
  chunks : list string;
  current_pdf_name : string
}.

(** [initialize_session_state] on a session without keys. *)
Definition initialize_session_state : session :=
  {| qa_pipeline := None; pdf_loaded := false; chunks := [];
     current_pdf_name := "" |}.

Record uploaded_file : Type := {
  name : string;
  size : N;
  getvalue : PDFLoader.pdf_file
}.

Section App.
Context {B : Backend}.
Variable RecursiveCharacterTextSplitter :
  nat -> nat -> list string -> string -> result (list string).
(** The name [tempfile.NamedTemporaryFile] picks, without its suffix. *)
Variable tmp_name : string.
Local Open Scope py_scope.

(** Lines 162-179 of [process_pdf]: load and chunk the file written at
    [tmp_path], set up a new pipeline on the chunks and keep it in the
    session.  The messages shown to the user are left out. *)
Definition ingest (uploaded : uploaded_file)
  : M B session (PDFLoader.chunk_info * QAPipeline.store_info) :=
  let tmp_path := tmp_name +:+ ".pdf" in
  let fs : PDFLoader.file_system :=
    fun p => if String.eqb p tmp_path then Some (getvalue uploaded) else None in
  let pdf_loader := PDFLoader.init RecursiveCharacterTextSplitter 500 50 in
  chunks <- lift_result (PDFLoader.load_pdf pdf_loader fs tmp_path) ;;
  let chunk_info := PDFLoader.get_chunk_info chunks in
  created <- on_object tt
    (QAPipeline.init None None None "sentence-transformers/all-MiniLM-L6-v2") ;;
  let pipeline0 := fst created in
  made <- on_object pipeline0 (QAPipeline.setup_qa_pipeline chunks) ;;
  let pipeline := snd made in
  put {| qa_pipeline := Some pipeline; pdf_loaded := true; chunks := chunks;
         current_pdf_name := name uploaded |} ;;;
  info <- on_object pipeline QAPipeline.get_vector_store_info ;;
  ret (chunk_info, fst info).

(** The [try] block of [process_pdf], lines 152-179. *)
Definition process_pdf_body (uploaded : uploaded_file)
  : M B session (option (PDFLoader.chunk_info * QAPipeline.store_info)) :=
  if (50 * 1024 * 1024 <? size uploaded)%N then ret None
  else
    infos <- ingest uploaded ;;
    ret (Some infos).

(** [process_pdf]: every exception ends in [return None, None]. *)
Definition process_pdf (uploaded : uploaded_file)
  : M B session (option (PDFLoader.chunk_info * QAPipeline.store_info)) :=
  try_except (process_pdf_body uploaded) (fun _ => ret None).

Definition ask_question (question : string)
  : M B QAPipeline.t QAPipeline.QueryResult :=
  try_except (QAPipeline.query_chain question)
    (fun e =>
       ret {| QAPipeline.answer := "Error processing question: " +:+ exn_str e;
              QAPipeline.sources := [];
              QAPipeline.source_count := 0 |}).

(** The sidebar's Clear button, lines 283-290, up to the rerun. *)
Definition clear_button : M B session unit :=
  sess <- get ;;
  match qa_pipeline sess with
  | Some pipeline => on_object pipeline QAPipeline.clear_vector_store ;;; ret tt
  | None => ret tt
  end ;;;
  put initialize_session_state.

(** [check_openrouter_key], lines 133-145, without the messages. *)
Definition check_openrouter_key : M B session bool :=
  api_key <- observe (fun w => (getenv B "OPENROUTER_API_KEY" w, w)) ;;
  match api_key with
  | Some key => ret (PyStr.truthy key)
  | None => ret false
  end.

End App.

End Main.

(** ** The embedding, vector and language-model services of the specification *)

Module SpecBackend.

(** Modelled from the spec: the vector backend of section 6, whose code
    (ChromaDB behind LangChain) is not part of the repository.  Its state
    is the named collections, each holding the texts inserted into it in
    insertion order; [clock] counts the calls made so far. *)
Record service_state : Type := {
  collections : gmap string (list string);
  clock : nat
}.

Definition tick (w : service_state) : service_state :=
  {| collections := collections w; clock := S (clock w) |}.

Definition with_collections (m : gmap string (list string)) (w : service_state) : service_state :=
  {| collections := m; clock := clock w |}.

Section Services.
(** What the specification leaves to the services: which calls fail and
    how, the environment variables, the random names, the distance between
    the embeddings of two texts, and the text the language model writes. *)
Variable fault : nat -> option exn.
Variable environ : string -> option string.
Variable uuid : nat -> string.
Variable distance : string -> string -> nat.
Variable generate : string -> string -> list string -> string.

(** Modelled from the spec: a call to a service of section 6 either fails
    with the error its backend reports (section 4.3, failure handling) or
    does what the section says it does. *)
Definition service {A} (f : service_state -> result A * service_state) (w : service_state)
  : result A * service_state :=
  match fault (clock w) with
  | Some e => (Raise e, tick w)
  | None => f (tick w)
  end.

(** Modelled from the spec: create-named-collection and insert of section
    6, one entry per text and no deduplication (section 4.2); an existing
    collection of that name receives the texts. *)
Definition insert_texts (texts : list string) (name : string) (w : service_state)
  : result unit * service_state :=
  let old := match collections w !! name with Some l => l | None => [] end in
  (Ok tt, with_collections (<[name := old ++ texts]> (collections w)) w).

Definition closer (question a b : string) : Prop :=
  distance question a <= distance question b.

Local Instance closer_dec question a b : Decision (closer question a b).
Proof. unfold closer. apply _. Defined.

(** Modelled from the spec: the k-nearest-neighbour query of section 6,
    the [k] entries of the collection closest to the question. *)
Definition nearest (k : nat) (question : string) (texts : list string)
  : list string :=
  take k (merge_sort (closer question) texts).

Definition as_document (text : string) : document :=
  {| page_content := Some text; content := None |}.

Definition missing_collection (name : string) : exn :=
  Exn ValueError ("Collection " +:+ name +:+ " does not exist.").

(** Modelled from the spec: steps 1-4 of section 4.3, retrieval from the
    chain's collection and generation from the prompt, the retrieved texts
    and the question. *)
Definition answer_question (chain : RetrievalQA) (question : string) (w : service_state)
  : result chain_output * service_state :=
  match collections w !! collection_name (retriever chain) with
  | None => (Raise (missing_collection (collection_name (retriever chain))), w)
  | Some texts =>
      let found := nearest (search_k chain) question texts in
      (Ok {| output_result := Some (generate (prompt chain) question found);
             output_source_documents := Some (map as_document found) |}, w)
  end.

(** Modelled from the spec: count-entries of section 6. *)
Definition count_entries (store : Chroma) (w : service_state) : result nat * service_state :=
  match collections w !! collection_name store with
  | None => (Raise (missing_collection (collection_name store)), w)
  | Some texts => (Ok (length texts), w)
  end.

(** Modelled from the spec: delete-collection of section 6; it reports a
    collection that is already gone. *)
Definition drop_collection (name : string) (w : service_state) : result unit * service_state :=
  match collections w !! name with
  | None => (Raise (missing_collection name), w)
  | Some _ => (Ok tt, with_collections (delete name (collections w)) w)
  end.

(** The name [setup_qa_pipeline] gives to its collection in world [w]. *)
Definition new_name (w : service_state) : string :=
  "pdf_qa_collection_" +:+ PyStr.slice_to 8 (uuid (clock w)).

(** The entries a collection of that name holds in world [w], none when
    the name is not in use. *)
Definition held (w : service_state) : list string :=
  match collections w !! new_name w with Some l => l | None => [] end.

(** The chain of the pipeline retrieves, three at a time, from a
    collection that holds exactly [entries]. *)
Definition indexed (self : QAPipeline.t) (w : service_state) (entries : list string) : Prop :=
  exists chain,
    QAPipeline.qa_chain self = Some chain /\
    search_k chain = 3 /\
    collections w !! collection_name (retriever chain) = Some entries.

(** Modelled from the spec: the services of section 6 together. *)
Definition backend : Backend :=
  {| World := service_state;
     getenv := fun key _ => environ key;
     uuid4_hex := fun w => (uuid (clock w), tick w);
     HuggingFaceEmbeddings := fun _ => service (fun w => (Ok tt, w));
     ChatOpenAI := fun _ _ _ => service (fun w => (Ok tt, w));
     Chroma_from_texts := fun texts name => service (insert_texts texts name);
     RetrievalQA_from_chain_type := fun _ => service (fun w => (Ok tt, w));
     chain_call := fun chain question => service (answer_question chain question);
     collection_count := fun store => service (count_entries store);
     delete_collection := fun name => service (drop_collection name) |}.

End Services.

Definition empty_world : service_state := {| collections := ∅; clock := 0 |}.

End SpecBackend.

(** ** The chunker of the specification *)

Module Chunker.

Definition total_length (pieces : list string) : nat :=
  foldr (fun p n => String.length p + n) 0 pieces.

Definition join (pieces : list string) : string :=
  foldr String.append "" pieces.

Definition nonempty (s : string) : bool := PyStr.truthy s.

(** Modelled from the spec: whether a separator of section 4.1 can split
    a text, that is, occurs in it; the empty separator occurs everywhere. *)
Fixpoint occurs (sep s : string) : bool :=
  match s with
  | EmptyString => String.prefix sep EmptyString
  | String _ s' => String.prefix sep s || occurs sep s'
  end.

(** Modelled from the spec: "split on a separator" of section 4.1.  The
    pieces are cut in front of each occurrence of the separator, leftmost
    first, so that a piece keeps the separator that precedes it and joining
    pieces is concatenation; [skip] counts the characters of the separator
    just found that are still to be read, [cur] is the piece being read. *)
Fixpoint split_at (sep : string) (skip : nat) (cur s : string) : list string :=
  match s with
  | EmptyString => [cur]
  | String c s' =>
      match skip with
      | S k => split_at sep k (cur +:+ String c EmptyString) s'
      | 0 =>
          if String.prefix sep s
          then cur :: split_at sep (String.length sep - 1) (String c EmptyString) s'
          else split_at sep 0 (cur +:+ String c EmptyString) s'
      end
  end.

(** Modelled from the spec: the pieces of section 4.1 for one separator,
    the non-empty ones; with the empty separator, the characters. *)
Definition split_on (sep text : string) : list string :=
  List.filter nonempty (split_at sep 0 "" text).

Section Sizes.
Variable chunk_size chunk_overlap : nat.

(** Modelled from the spec: emitting a chunk of section 4.1, the pieces
    gathered so far joined; nothing is emitted for no text. *)
Definition emit (current : list string) : list string :=
  match join current with
  | EmptyString => []
  | doc => [doc]
  end.

(** Modelled from the spec: the seed of a new chunk, section 4.1: the
    trailing pieces of the chunk just emitted, at most [chunk_overlap]
    characters of them (section 3: "up to chunk_overlap characters shared
    with its predecessor") and few enough to leave room for the next piece,
    of length [len]. *)
Fixpoint seed (len : nat) (current : list string) : list string :=
  match current with
  | [] => []
  | _ :: rest =>
      if (chunk_overlap <? total_length current)
         || ((chunk_size <? total_length current + len)
             && (0 <? total_length current))
      then seed len rest
      else current
  end.

(** Modelled from the spec: "join consecutive pieces until the running
    length would exceed chunk_size; when emitting a new chunk, seed it with
    the trailing chunk_overlap characters of the previous chunk". *)
Fixpoint merge (current pieces : list string) : list string :=
  match pieces with
  | [] => emit current
  | d :: rest =>
      if chunk_size <? total_length current + String.length d
      then emit current ++ merge (seed (String.length d) current ++ [d]) rest
      else merge (current ++ [d]) rest
  end.

(** Modelled from the spec: one level of the recursion of section 4.1.
    Pieces within [chunk_size] are gathered and merged; a piece that is too
    long is split by [finer], between the chunks of its neighbours. *)
Fixpoint regroup (finer : string -> list string) (good pieces : list string)
  : list string :=
  match pieces with
  | [] => merge [] good
  | p :: rest =>
      if String.length p <? chunk_size
      then regroup finer (good ++ [p]) rest
      else merge [] good ++ finer p ++ regroup finer [] rest
  end.

(** Modelled from the spec: the Chunker of section 4.1, which the
    repository delegates to the third-party class
    [RecursiveCharacterTextSplitter] (not part of its code): "recursively
    attempt to split on a priority list of separators [...] choosing the
    coarsest separator that still yields pieces within chunk_size"; a piece
    for which no finer separator is left is "emitted as its own chunk". *)
Fixpoint split_text (separators : list string) (text : string) : list string :=
  match separators with
  | [] => [text]
  | sep :: finer_separators =>
      if occurs sep text
      then
        let atomic := fun p : string => [p] in
        let finer :=
          if nonempty sep
          then match finer_separators with
               | [] => atomic
               | _ => split_text finer_separators
               end
          else atomic in
        regroup finer [] (split_on sep text)
      else split_text finer_separators text
  end.

End Sizes.

(** The characters of a text, each as a string. *)
Fixpoint chars (s : string) : list string :=
  match s with
  | EmptyString => []
  | String c s' => String c EmptyString :: chars s'
  end.

(** A text without spaces and line feeds. *)
Fixpoint single_word (s : string) : Prop :=
  match s with
  | EmptyString => True
  | String c s' => c <> " "%char /\ c <> "010"%char /\ single_word s'
  end.

(** A chunk of at most [size] characters. *)
Definition within (size : nat) (c : string) : Prop := String.length c <= size.

(** Modelled from the spec: the splitter class that [PDFLoader.init]
    takes, the chunker of section 4.1 behind the third-party interface. *)
Definition RecursiveCharacterTextSplitter
    (chunk_size chunk_overlap : nat) (separators : list string) (text : string)
  : result (list string) :=
  Ok (split_text chunk_size chunk_overlap separators text).

(** Modelled from the spec: [chunk(text, chunk_size, chunk_overlap)] of
    section 4.1, with the separators of [PDFLoader]. *)
Definition chunk (text : string) (chunk_size chunk_overlap : nat) : list string :=
  split_text chunk_size chunk_overlap PDFLoader.separators text.

End Chunker.

(** ** Runs of a pipeline *)

Module Scenario.

(** The calls a caller makes on one pipeline object. *)
Inductive op : Type :=
  | Setup (chunks : list string)
  | Query (question : string)
  | Info
  | Clear.

Section Run.
Context {B : Backend}.
Local Open Scope py_scope.

(** One call; the caller notes whether it returned or raised. *)
Definition perform (o : op) : M B QAPipeline.t bool :=
  match o with
  | Setup chunks =>
      try_except (QAPipeline.setup_qa_pipeline chunks ;;; ret true)
        (fun _ => ret false)
  | Query question =>
      try_except (QAPipeline.query_chain question ;;; ret true)
        (fun _ => ret false)
  | Info =>
      try_except (QAPipeline.get_vector_store_info ;;; ret true)
        (fun _ => ret false)
  | Clear =>
      try_except (QAPipeline.clear_vector_store ;;; ret true)
        (fun _ => ret false)
  end.

Fixpoint run (ops : list op) : M B QAPipeline.t (list (op * bool)) :=
  match ops with
  | [] => ret []
  | o :: rest =>
      returned <- perform o ;;
      outcomes <- run rest ;;
      ret ((o, returned) :: outcomes)
  end.

End Run.

(** The result [query_chain] packages from what the chain call gave. *)
Definition packaged (r : result chain_output) : QAPipeline.QueryResult :=
  match r with
  | Ok out =>
      let sources :=
        QAPipeline.format_sources
          (match output_source_documents out with Some docs => docs | None => [] end) in
      {| QAPipeline.answer := QAPipeline.with_default "No answer generated" (output_result out);
         QAPipeline.sources := sources;
         QAPipeline.source_count := length sources |}
  | Raise e =>
      {| QAPipeline.answer := "Error processing question: " +:+ exn_str e;
         QAPipeline.sources := [];
         QAPipeline.source_count := 0 |}
  end.

(** The text [query_chain] reads from a document: its [page_content], or
    else its [content]; a document with neither is passed over. *)
Definition doc_text (doc : document) : option string :=
  match page_content doc with
  | Some text => Some text
  | None => content doc
  end.

Definition texts_of (docs : list document) : list string := omap doc_text docs.

(** What the loop of [query_chain] adds for one document. *)
Definition shown_of (doc : document) : list string :=
  match page_content doc with
  | Some text => [QAPipeline.truncate text]
  | None =>
      match content doc with
      | Some text => [QAPipeline.truncate text]
      | None => []
      end
  end.

(** The events a computation added to the trace. *)
Definition new_events {B : Backend} (before after : env B) : list event :=
  drop (length (trace before)) (trace after).

End Scenario.

(** ** The error conditions of the specification, as the code raises them *)

Module Condition.

Definition PipelineNotInitialized : exn :=
  Exn ValueError "QA pipeline not initialized. Call setup_qa_pipeline first.".

Definition EmptyQuestion : exn :=
  Exn ValueError "Question cannot be empty".

(** An empty document reaches the caller of [load_pdf] as one of these. *)
Definition EmptyDocument (e : exn) : Prop :=
  e = Exn PlainException "Error processing PDF: PDF file is empty" \/
  e = Exn PlainException "Error processing PDF: No text content found in PDF".

(** A page whose extracted text is empty or whitespace only. *)
Definition blank_page (p : PDFLoader.page) : Prop :=
  exists text, p = Ok text /\ PyStr.strip text = "".

End Condition.

(** ** Concrete services, pipelines and documents *)

Module Examples.
Import QAPipeline SpecBackend Scenario.

Definition api_error : exn :=
  Exn (LibraryError "APIConnectionError") "Connection error.".

Definition environ (key : string) : option string :=
  if String.eqb key "OPENROUTER_API_KEY" then Some "sk-or-v1-0000" else None.

Definition uuid (n : nat) : string := "3f2a9c1e5b7d4e60a1b2c3d4e5f60718".

(** A stand-in for the distance between embeddings. *)
Definition distance (question text : string) : nat :=
  String.length text.

Definition generate (prompt question : string) (context : list string) : string :=
  "The document says: " +:+ Chunker.join context.

(** Services whose calls numbered by [bad] fail with [api_error]. *)
Definition faulty (bad : nat -> bool) : Backend :=
  backend (fun n => if bad n then Some api_error else None)
    environ uuid distance generate.

Definition healthy : Backend := faulty (fun _ => false).

(** The language model and the vector store cannot be reached. *)
Definition unreachable : Backend := faulty (fun _ => true).

(** The fourth call, the first one after [__init__], fails. *)
Definition store_down : Backend := faulty (fun n => n =? 3).

(** The fifth call fails: after a set-up on fresh services and the count
    that [clear_vector_store] reads first, it is the deletion. *)
Definition deletion_fails : Backend := faulty (fun n => n =? 4).

Definition start (B : Backend) (w : World B) : env B := Env w [].

Definition fresh : t := {| vector_store := None; qa_chain := None |}.

Definition store : Chroma := {| collection_name := "pdf_qa_collection_3f2a9c1e" |}.

Definition chain : RetrievalQA :=
  {| retriever := store; search_k := 3; prompt := prompt_template |}.

Definition ready : t := {| vector_store := Some store; qa_chain := Some chain |}.

Definition long_text : string := PyStr.repeat_char "x" 250.

Definition some_chunks : list string :=
  ["Paris is the capital of France."; "Paris is the capital of France.";
   "The Seine runs through it."].

(** Services that hold the collection of [ready], filled with [texts]. *)
Definition holding (texts : list string) : service_state :=
  {| collections := {[ collection_name store := texts ]}; clock := 0 |}.

(** A caller that tries more than once before any set-up has returned. *)
Definition early_calls : list op :=
  [Setup []; Query "What is this about?"; Clear; Info;
   Setup ["Paris is the capital of France."]].

Definition model_name : string := "sentence-transformers/all-MiniLM-L6-v2".

(** A scanned document: two pages without text. *)
Definition scanned : Main.uploaded_file :=
  {| Main.name := "scan.pdf";
     Main.size := 2048;
     Main.getvalue := Ok [Ok ""; Ok ("  " +:+ PyStr.newline +:+ " ")] |}.

Definition broken_reader : exn :=
  Exn (LibraryError "PdfReadError") "EOF marker not found".

Definition disk : PDFLoader.file_system :=
  fun path => if String.eqb path "Report.PDF" then Some (Raise broken_reader) else None.

Definition loader : PDFLoader.t :=
  PDFLoader.init Chunker.RecursiveCharacterTextSplitter 500 50.

(** A single word of 501 characters. *)
Definition long_word : string := PyStr.repeat_char "a" 501.

(** The pipeline set up on [some_chunks], then cleared while the deletion
    of its collection fails. *)
Definition stale_set_up :=
  setup_qa_pipeline (B:=deletion_fails) some_chunks fresh (start deletion_fails empty_world).

Definition stale_cleared :=
  clear_vector_store (B:=deletion_fails) stale_set_up.1.2 stale_set_up.2.

Definition after_init :=
  init (B:=store_down) None None None model_name tt (start store_down empty_world).

Definition after_early_calls := run (B:=store_down) early_calls fresh after_init.2.

Definition two_chunks : list string := ["alpha"; "beta"].

Definition two_set_up := setup_qa_pipeline (B:=healthy) two_chunks fresh (start healthy empty_world).

Definition asked :=
  run (B:=healthy) (map Query ["Which letters?"; " "]) two_set_up.1.2 two_set_up.2.

Definition answered :=
  query_chain (B:=healthy) "What is this about?" asked.1.2 asked.2.

Definition answered_result : QueryResult :=
  {| answer := "The document says: betaalpha";
     sources := ["beta"; "alpha"];
     source_count := 2 |}.

Definition library : service_state := holding [long_text; "A short chunk."].

Definition indexed_run :=
  setup_qa_pipeline (B:=healthy) some_chunks fresh (start healthy empty_world).

(** A second document, of one chunk, ingested into a new pipeline after
    [indexed_run] while the services draw the same name again. *)
Definition one_chunk : list string := ["alpha"].

Definition reused_set_up :=
  setup_qa_pipeline (B:=healthy) one_chunk fresh indexed_run.2.

Definition reused_answered :=
  query_chain (B:=healthy) "What is this about?" reused_set_up.1.2 reused_set_up.2.

Definition reused_info :=
  get_vector_store_info (B:=healthy) reused_set_up.1.2 reused_set_up.2.

End Examples.

(** ** Notions used to state further properties *)

Module Derived.

(** A file system that holds one file. *)
Definition single_file (path : string) (file : PDFLoader.pdf_file)
  : PDFLoader.file_system :=
  fun p => if String.eqb p path then Some file else None.

(** What the [except] clause of [load_pdf] raises for a failure. *)
Definition wrapped (inner : exn) : exn :=
  Exn PlainException ("Error processing PDF: " +:+ exn_str inner).

(** The text gathered from page texts: the non-empty ones in page order,
    each followed by a line feed. *)
Definition lines_of (texts : list string) : string :=
  foldr (fun t acc => if PyStr.truthy t then t +:+ PyStr.newline +:+ acc else acc)
    "" texts.

(** Truth value of an optional string: [None] and [""] are falsy. *)
Definition given (x : option string) : bool :=
  match x with Some s => PyStr.truthy s | None => false end.

Definition api_key_required : exn :=
  Exn ValueError
    "OpenRouter API key is required. Set OPENROUTER_API_KEY environment variable.".

(** The store of the pipeline a session holds, if it holds one. *)
Definition session_store (sess : Main.session) : option Chroma :=
  match Main.qa_pipeline sess with
  | Some pipeline => QAPipeline.vector_store pipeline
  | None => None
  end.

Definition is_delete (e : event) : bool :=
  match ev_call e with CallDelete _ => true | _ => false end.

Definition no_result : QAPipeline.store_info :=
  {| QAPipeline.total_documents := 0; QAPipeline.info_collection_name := None |}.

(** The result [ask_question] and [query_chain] give for an error. *)
Definition error_result (e : exn) : QAPipeline.QueryResult :=
  {| QAPipeline.answer := "Error processing question: " +:+ exn_str e;
     QAPipeline.sources := [];
     QAPipeline.source_count := 0 |}.

(** The documents a chain call handed back, none when it raised or
    returned no [source_documents]. *)
Definition returned_documents (r : result chain_output) : list document :=
  match r with
  | Ok out =>
      match output_source_documents out with Some docs => docs | None => [] end
  | Raise _ => []
  end.

(** The name [setup_qa_pipeline] gives its collection when the outside
    world is [w], and the store and the chain it builds on it. *)
Definition name_in {B : Backend} (w : World B) : string :=
  "pdf_qa_collection_" +:+ PyStr.slice_to 8 (uuid4_hex B w).1.

Definition store_in {B : Backend} (w : World B) : Chroma :=
  {| collection_name := name_in w |}.

Definition chain_in {B : Backend} (w : World B) : RetrievalQA :=
  {| retriever := store_in w; search_k := 3;
     prompt := QAPipeline.prompt_template |}.

End Derived.

(** ** Further concrete inputs *)

Module MoreExamples.
Import QAPipeline SpecBackend Scenario Examples.

(** A document of three pages, the second without text. *)
Definition paris : Main.uploaded_file :=
  {| Main.name := "paris.pdf";
     Main.size := 4096;
     Main.getvalue :=
       Ok [Ok "Paris is the capital of France."; Ok "";
           Ok "The Seine runs through it."] |}.

(** The second call, the first after the name is drawn, fails. *)
Definition vector_store_down : Backend := faulty (fun n => n =? 1).

Definition failed_setup :=
  setup_qa_pipeline (B:=vector_store_down) some_chunks ready
    (start vector_store_down empty_world).

Definition good_setup :=
  setup_qa_pipeline (B:=healthy) some_chunks fresh (start healthy empty_world).

Definition asked_library :=
  query_chain (B:=healthy) "What is this about?" ready (start healthy library).

Definition processed :=
  Main.process_pdf (B:=healthy) Chunker.RecursiveCharacterTextSplitter
    "/tmp/tmpk3v9x2" paris Main.initialize_session_state
    (start healthy empty_world).

Definition cleared_library :=
  clear_vector_store (B:=healthy) ready (start healthy library).

Definition library_result : QueryResult :=
  {| answer := generate prompt_template "What is this about?"
                 ["A short chunk."; long_text];
     sources := ["A short chunk."; truncate long_text];
     source_count := 2 |}.

Definition processed_infos : PDFLoader.chunk_info * store_info :=
  ({| PDFLoader.total_chunks := 1; PDFLoader.total_characters := 59 |},
   {| total_documents := 1;
      info_collection_name := Some "pdf_qa_collection_3f2a9c1e" |}).

End MoreExamples.

(** * Properties *)

(** ** Strings *)

Module StrFacts.
Import PyStr.

Lemma app_nil_l (s : string) : "" +:+ s = s.
Proof. reflexivity. Qed.

Lemma app_cons (c : ascii) (s t : string) :
  String c s +:+ t = String c (s +:+ t).
Proof. reflexivity. Qed.

Lemma app_nil_r (s : string) : s +:+ "" = s.
Proof. induction s as [|c s IH]; [reflexivity|]. rewrite app_cons, IH. reflexivity. Qed.

Lemma app_assoc (s t u : string) : (s +:+ t) +:+ u = s +:+ (t +:+ u).
Proof.
  induction s as [|c s IH]; [reflexivity|].
  rewrite !app_cons, IH. reflexivity.
Qed.

Lemma length_app (s t : string) :
  String.length (s +:+ t) = String.length s + String.length t.
Proof.
  induction s as [|c s IH]; [reflexivity|].
  rewrite app_cons. simpl. rewrite IH. reflexivity.
Qed.

Lemma app_eq_nil (s t : string) : s +:+ t = "" -> s = "" /\ t = "".
Proof. destruct s; [rewrite app_nil_l; auto | rewrite app_cons; discriminate]. Qed.

Lemma prefix_app (s t : string) : String.prefix s (s +:+ t) = true.
Proof.
  induction s as [|c s IH]; [destruct t; reflexivity|].
  rewrite app_cons. simpl. destruct (ascii_dec c c); [exact IH | congruence].
Qed.

Lemma all_space_app (s t : string) :
  all_space (s +:+ t) = all_space s && all_space t.
Proof.
  induction s as [|c s IH]; [reflexivity|].
  rewrite app_cons. simpl. rewrite IH. apply andb_assoc.
Qed.

Lemma lstrip_nil (s : string) : lstrip s = "" <-> all_space s = true.
Proof.
  induction s as [|c s IH]; simpl; [tauto|].
  destruct (isspace c); simpl; [exact IH|]. split; discriminate.
Qed.

Lemma rstrip_nil (s : string) : rstrip s = "" <-> all_space s = true.
Proof.
  induction s as [|c s IH]; simpl; [tauto|].
  destruct (rstrip s) eqn:Hr.
  - destruct (isspace c); simpl; [tauto|]. split; discriminate.
  - split; [discriminate|]. intros H. apply andb_true_iff in H as [_ H].
    apply IH in H. discriminate.
Qed.

Lemma lstrip_head (s : string) :
  lstrip s = "" \/ exists c r, lstrip s = String c r /\ isspace c = false.
Proof.
  induction s as [|c s IH]; simpl; [now left|].
  destruct (isspace c) eqn:Hc; [exact IH|]. right. eauto.
Qed.

(** A string strips to nothing exactly when it is made of whitespace. *)
Lemma strip_nil (s : string) : strip s = "" <-> all_space s = true.
Proof.
  unfold strip. rewrite rstrip_nil. split.
  - intros H. destruct (lstrip_head s) as [E | (c & r & E & Hc)].
    + now apply lstrip_nil.
    + rewrite E in H. simpl in H. rewrite Hc in H. discriminate.
  - intros H. apply lstrip_nil in H. now rewrite H.
Qed.

Lemma truthy_false (s : string) : truthy s = false <-> s = "".
Proof. destruct s; simpl; split; congruence. Qed.

Lemma lower_app (s t : string) : lower (s +:+ t) = lower s +:+ lower t.
Proof.
  induction s as [|c s IH]; [reflexivity|].
  rewrite app_cons. simpl. rewrite IH, app_cons. reflexivity.
Qed.

Lemma drop_app_length (s t : string) : drop (String.length s) (s +:+ t) = t.
Proof. induction s as [|c s IH]; [destruct t; reflexivity | exact IH]. Qed.

Lemma endswith_app (s t : string) : endswith (s +:+ t) t = true.
Proof.
  unfold endswith. rewrite length_app. apply andb_true_iff. split.
  - apply Nat.leb_le. lia.
  - replace (String.length s + String.length t - String.length t)
      with (String.length s) by lia.
    rewrite drop_app_length. apply String.eqb_refl.
Qed.

(** The name of the temporary file is accepted as the name of a PDF. *)
Lemma tmp_path_is_pdf (stem : string) :
  endswith (lower (stem +:+ ".pdf")) ".pdf" = true.
Proof. rewrite lower_app. apply (endswith_app (lower stem) ".pdf"). Qed.

Lemma length_slice_to (n : nat) (s : string) :
  n <= String.length s -> String.length (slice_to n s) = n.
Proof.
  revert s. induction n as [|n IH]; intros s H; [reflexivity|].
  destruct s as [|c s]; simpl in *; [lia|]. rewrite IH; lia.
Qed.

Lemma length_drop (n : nat) (s : string) :
  String.length (drop n s) = String.length s - n.
Proof.
  revert s. induction n as [|n IH]; intros [|c s]; simpl; try lia. apply IH.
Qed.

Lemma length_repeat_char (c : ascii) (n : nat) :
  String.length (repeat_char c n) = n.
Proof. induction n as [|n IH]; simpl; congruence. Qed.

End StrFacts.

(** ** Loading a PDF *)

Module LoaderFacts.
Import PDFLoader Condition.

Lemma extract_blank_pages (pages : list page) (text_content : string) :
  Forall blank_page pages ->
  PyStr.all_space text_content = true ->
  exists text, extract_pages pages text_content = Ok text /\
               PyStr.all_space text = true.
Proof.
  intros Hpages. revert text_content.
  induction Hpages as [|p pages (text & -> & Hblank) _ IH]; intros acc Hacc.
  - exists acc. split; [reflexivity | exact Hacc].
  - simpl. destruct (PyStr.truthy text); [|now apply IH].
    apply IH. rewrite !StrFacts.all_space_app, Hacc.
    apply StrFacts.strip_nil in Hblank. rewrite Hblank. reflexivity.
Qed.

Lemma body_blank_document (self : t) (pages : list page) :
  Forall blank_page pages ->
  load_pdf_body self (Ok pages) =
    Raise (Exn ValueError
             (match pages with
              | [] => "PDF file is empty"
              | _ => "No text content found in PDF"
              end)).
Proof.
  intros Hpages. unfold load_pdf_body.
  destruct pages as [|p pages]; [reflexivity|].
  change (length (p :: pages) =? 0) with false. cbv iota.
  destruct (extract_blank_pages (p :: pages) "" Hpages eq_refl) as (text & -> & Hsp).
  apply StrFacts.strip_nil in Hsp. rewrite Hsp. reflexivity.
Qed.

Lemma body_no_chunks (self : t) (pages : list page) (text : string) :
  pages <> [] ->
  extract_pages pages "" = Ok text ->
  PyStr.strip text <> "" ->
  split_text self text = Ok [] ->
  load_pdf_body self (Ok pages) =
    Raise (Exn ValueError "Failed to create text chunks").
Proof.
  intros Hne Hext Hstrip Hsplit. unfold load_pdf_body.
  destruct pages as [|p pages]; [congruence|].
  change (length (p :: pages) =? 0) with false. cbv iota.
  rewrite Hext. destruct (PyStr.strip text); [congruence|].
  simpl. rewrite Hsplit. reflexivity.
Qed.

(** What [load_pdf] returns is never an empty list of chunks. *)
Lemma load_pdf_returns_chunks (self : t) (fs : file_system) (file_path : string)
    (chunks : list string) :
  load_pdf self fs file_path = Ok chunks -> chunks <> [].
Proof.
  unfold load_pdf, load_pdf_body. intros H.
  destruct (fs file_path) as [[pages|e]|]; try discriminate;
    destruct (negb _); try discriminate.
  destruct (length pages =? 0); try discriminate.
  destruct (extract_pages pages ""); try discriminate.
  destruct (negb _); try discriminate.
  destruct (split_text self a) as [[|c cs]|]; try discriminate.
  injection H as <-. discriminate.
Qed.

(** C10. Every failure inside the processing block of [load_pdf] (an empty
    PDF, no text, no chunks, or an error of the reader or the splitter)
    reaches the caller as one plain [Exception] whose message is
    "Error processing PDF: " followed by the message of the failure; the
    class of the failure is lost. *)
Theorem load_pdf_wraps_failures (self : t) (fs : file_system)
    (file_path : string) (file : pdf_file) (inner : exn) :
  fs file_path = Some file ->
  PyStr.endswith (PyStr.lower file_path) ".pdf" = true ->
  load_pdf_body self file = Raise inner ->
  exists e,
    load_pdf self fs file_path = Raise e /\
    exn_type e = PlainException /\
    exn_str e = "Error processing PDF: " +:+ exn_str inner /\
    String.prefix "Error processing PDF: " (exn_str e) = true.
Proof.
  intros Hfile Hpdf Hbody. unfold load_pdf. rewrite Hfile, Hpdf, Hbody.
  eexists. split; [reflexivity|]. repeat split.
  apply StrFacts.prefix_app.
Qed.

End LoaderFacts.

(** ** Queries *)

Module QueryFacts.
Import QAPipeline Condition Scenario.

Section Generic.
Context {B : Backend}.

Lemma query_chain_uninitialized (question : string) (self : t) (v : env B) :
  qa_chain self = None ->
  query_chain question self v = (Raise PipelineNotInitialized, self, v).
Proof. intros H. unfold query_chain, bind, get. rewrite H. reflexivity. Qed.

Lemma query_chain_blank (question : string) (self : t) (v : env B)
    (chain : RetrievalQA) :
  qa_chain self = Some chain ->
  PyStr.strip question = "" ->
  query_chain question self v = (Raise EmptyQuestion, self, v).
Proof.
  intros H Hq. unfold query_chain, bind, get. rewrite H, Hq. reflexivity.
Qed.

Lemma query_chain_asks (question : string) (self : t) (v : env B)
    (chain : RetrievalQA) :
  qa_chain self = Some chain ->
  PyStr.strip question <> "" ->
  query_chain question self v =
    (Ok (packaged (chain_call B chain question (world v)).1),
     self,
     Env (chain_call B chain question (world v)).2
         (trace v ++ [Event (CallChain chain question)
                        (raised (chain_call B chain question (world v)).1)])).
Proof.
  intros H Hq. unfold query_chain, bind, get. rewrite H.
  destruct (PyStr.strip question) eqn:Hs; [congruence|]. simpl.
  unfold try_except, bind, external, ret.
  destruct (chain_call B chain question (world v)) as [[out|e] w']; reflexivity.
Qed.

(** A query leaves the pipeline object as it was. *)
Lemma query_chain_self (question : string) (self self' : t) (v v' : env B)
    (r : result QueryResult) :
  query_chain question self v = (r, self', v') -> self' = self.
Proof.
  destruct (qa_chain self) as [chain|] eqn:H.
  - destruct (decide (PyStr.strip question = "")) as [Hq|Hq].
    + rewrite (query_chain_blank _ _ _ _ H Hq). congruence.
    + rewrite (query_chain_asks _ _ _ _ H Hq). congruence.
  - rewrite (query_chain_uninitialized _ _ _ H). congruence.
Qed.

Lemma new_events_app (v : env B) (w : World B) (evs : list event) :
  new_events v (Env w (trace v ++ evs)) = evs.
Proof. unfold new_events. simpl. apply drop_app_length. Qed.

Lemma new_events_same (v : env B) : new_events v v = [].
Proof. unfold new_events. apply drop_all. Qed.

(** C1. On a pipeline whose chain is set up, when the chain call made by
    [query_chain] raises an error, [query_chain] does not raise: it returns
    a result whose answer is a non-empty error message, with no sources and
    a source count of 0. *)
Theorem query_chain_absorbs_errors (question : string) (self self' : t)
    (v v' : env B) (chain : RetrievalQA) (r : result QueryResult) :
  qa_chain self = Some chain ->
  query_chain question self v = (r, self', v') ->
  (exists c q e, In (Event (CallChain c q) (Some e)) (new_events v v')) ->
  exists message,
    r = Ok {| answer := message; sources := []; source_count := 0 |} /\
    message <> "" /\
    String.prefix "Error processing question: " message = true.
Proof.
  intros Hchain Hrun (c & q & e & Hin).
  destruct (decide (PyStr.strip question = "")) as [Hq|Hq].
  - rewrite (query_chain_blank _ _ _ _ Hchain Hq) in Hrun.
    injection Hrun as <- <- <-. rewrite new_events_same in Hin. destruct Hin.
  - rewrite (query_chain_asks _ _ _ _ Hchain Hq) in Hrun.
    injection Hrun as <- <- <-. rewrite new_events_app in Hin.
    destruct Hin as [Hev|[]]. injection Hev as _ _ Hraised.
    destruct (chain_call B chain question (world v)).1 as [out|e0]; [discriminate|].
    simpl. eexists. split; [reflexivity|]. split; [discriminate|].
    apply StrFacts.prefix_app.
Qed.


(** C3, as the code has it. On a pipeline whose chain is set up, a question
    that is empty or whitespace only after trimming makes [query_chain]
    fail with the empty-question error, and nothing is called before that:
    the outside world and the trace of calls are as they were. *)
Theorem blank_question_is_rejected (question : string) (self : t) (v : env B)
    (chain : RetrievalQA) :
  qa_chain self = Some chain ->
  PyStr.strip question = "" ->
  query_chain question self v = (Raise EmptyQuestion, self, v) /\
  new_events v (query_chain question self v).2 = [].
Proof.
  intros H Hq. rewrite (query_chain_blank _ _ _ _ H Hq).
  split; [reflexivity | apply new_events_same].
Qed.

End Generic.

End QueryFacts.

(** ** The life cycle of a pipeline *)

Module LifeCycle.
Import QAPipeline Condition Scenario.

Ltac step_monad :=
  unfold bind, try_except, get, put, ret, raise, external, observe,
    set_vector_store, set_qa_chain in *; simpl in *.

Section Generic.
Context {B : Backend}.

(** [__init__] leaves no store and no chain. *)
Lemma init_fresh (api_key llm_base_url llm_model : option string)
    (embedding_model : string) (v v' : env B) (pipeline : t) :
  init api_key llm_base_url llm_model embedding_model tt v = (Ok pipeline, tt, v') ->
  vector_store pipeline = None /\ qa_chain pipeline = None.
Proof.
  unfold init. step_monad.
  destruct (or_str (or_str api_key _) None); [|discriminate].
  destruct (HuggingFaceEmbeddings B _ _) as [[[]|e1] w1]; [|discriminate].
  simpl. destruct (ChatOpenAI B _ _ _ _) as [[[]|e2] w2]; [|discriminate].
  simpl. intros H. injection H as <- _. split; reflexivity.
Qed.

(** A set-up that raises leaves the chain it found. *)
Lemma setup_raises_keeps_chain (chunks : list string) (self self' : t)
    (v v' : env B) (e : exn) :
  setup_qa_pipeline chunks self v = (Raise e, self', v') ->
  qa_chain self' = qa_chain self.
Proof.
  unfold setup_qa_pipeline. destruct chunks as [|c chunks].
  - step_monad. intros H. injection H as _ <- _. reflexivity.
  - step_monad. destruct (uuid4_hex B (world v)) as [hex w1]. simpl.
    destruct (Chroma_from_texts B _ _ w1) as [[[]|e1] w2]; simpl.
    + destruct (RetrievalQA_from_chain_type B _ w2) as [[[]|e2] w3]; simpl.
      * discriminate.
      * intros H. injection H as _ <- _. reflexivity.
    + intros H. injection H as _ <- _. reflexivity.
Qed.

(** What [get_vector_store_info] does, by what the object holds and what
    the two counts give: the one of the truth test at line 180, outside
    the [try], and the one at line 186, inside it. *)
Lemma info_cases (self : t) (v : env B) :
  match vector_store self with
  | None =>
      get_vector_store_info self v =
        (Ok {| total_documents := 0; info_collection_name := None |}, self, v)
  | Some store =>
      match collection_count B store (world v) with
      | (Raise e, w1) =>
          get_vector_store_info self v =
            (Raise e, self,
             Env w1 (trace v ++ [Event (CallCount store) (Some e)]))
      | (Ok n, w1) =>
          if n =? 0
          then
            get_vector_store_info self v =
              (Ok {| total_documents := 0; info_collection_name := None |}, self,
               Env w1 (trace v ++ [Event (CallCount store) None]))
          else
            match collection_count B store w1 with
            | (Ok m, w2) =>
                get_vector_store_info self v =
                  (Ok {| total_documents := m;
                         info_collection_name := Some (collection_name store) |},
                   self,
                   Env w2 ((trace v ++ [Event (CallCount store) None]) ++
                           [Event (CallCount store) None]))
            | (Raise e, w2) =>
                get_vector_store_info self v =
                  (Ok {| total_documents := 0; info_collection_name := None |},
                   self,
                   Env w2 ((trace v ++ [Event (CallCount store) None]) ++
                           [Event (CallCount store) (Some e)]))
            end
      end
  end.
Proof.
  unfold get_vector_store_info. step_monad.
  destruct (vector_store self) as [store|]; simpl; [|reflexivity].
  destruct (collection_count B store (world v)) as [[n|e] w1]; simpl;
    [|reflexivity].
  destruct (n =? 0); simpl; [reflexivity|].
  destruct (collection_count B store w1) as [[m|e] w2]; simpl; reflexivity.
Qed.

(** What [clear_vector_store] does, by what the object holds, what the
    count of the truth test at line 197 gives, outside the [try], and
    what the deletion gives, inside it. *)
Lemma clear_cases (self : t) (v : env B) :
  match vector_store self with
  | None => clear_vector_store self v = (Ok tt, self, v)
  | Some store =>
      match collection_count B store (world v) with
      | (Raise e, w1) =>
          clear_vector_store self v =
            (Raise e, self,
             Env w1 (trace v ++ [Event (CallCount store) (Some e)]))
      | (Ok n, w1) =>
          if n =? 0
          then
            clear_vector_store self v =
              (Ok tt, self, Env w1 (trace v ++ [Event (CallCount store) None]))
          else
            match delete_collection B (collection_name store) w1 with
            | (Ok _, w2) =>
                clear_vector_store self v =
                  (Ok tt, {| vector_store := None; qa_chain := None |},
                   Env w2 ((trace v ++ [Event (CallCount store) None]) ++
                           [Event (CallDelete (collection_name store)) None]))
            | (Raise e, w2) =>
                clear_vector_store self v =
                  (Ok tt, self,
                   Env w2 ((trace v ++ [Event (CallCount store) None]) ++
                           [Event (CallDelete (collection_name store)) (Some e)]))
            end
      end
  end.
Proof.
  unfold clear_vector_store. step_monad.
  destruct (vector_store self) as [store|]; simpl; [|reflexivity].
  destruct (collection_count B store (world v)) as [[n|e] w1]; simpl;
    [|reflexivity].
  destruct (n =? 0); simpl; [reflexivity|].
  destruct (delete_collection B _ w1) as [[[]|e] w2]; simpl; reflexivity.
Qed.

(** Asking for the store's statistics never changes the object. *)
Lemma info_keeps_self (self self' : t) (v v' : env B) (r : result store_info) :
  get_vector_store_info self v = (r, self', v') -> self' = self.
Proof.
  pose proof (info_cases self v) as H.
  destruct (vector_store self) as [store|].
  - destruct (collection_count B store (world v)) as [[n|e] w1].
    + destruct (n =? 0).
      * rewrite H. intros E; now injection E as _ <- _.
      * destruct (collection_count B store w1) as [[m|e] w2]; rewrite H;
          intros E; now injection E as _ <- _.
    + rewrite H. intros E; now injection E as _ <- _.
  - rewrite H. intros E; now injection E as _ <- _.
Qed.

(** When the store counts entries and the deletion succeeds, the store and
    the chain are dropped. *)
Lemma clear_after_deletion (self : t) (v : env B) (store : Chroma)
    (n : nat) (w1 w' : World B) :
  vector_store self = Some store ->
  collection_count B store (world v) = (Ok n, w1) ->
  n <> 0 ->
  delete_collection B (collection_name store) w1 = (Ok tt, w') ->
  clear_vector_store self v =
    (Ok tt, {| vector_store := None; qa_chain := None |},
     Env w' ((trace v ++ [Event (CallCount store) None]) ++
             [Event (CallDelete (collection_name store)) None])).
Proof.
  intros Hs Hc Hn Hd. pose proof (clear_cases self v) as H.
  rewrite Hs, Hc in H. apply Nat.eqb_neq in Hn. rewrite Hn, Hd in H. exact H.
Qed.

(** When the store counts entries and the deletion raises, the error is
    dropped and so is the reset: the object keeps its store and its
    chain. *)
Lemma clear_after_failed_deletion (self : t) (v : env B) (store : Chroma)
    (n : nat) (w1 w' : World B) (e : exn) :
  vector_store self = Some store ->
  collection_count B store (world v) = (Ok n, w1) ->
  n <> 0 ->
  delete_collection B (collection_name store) w1 = (Raise e, w') ->
  clear_vector_store self v =
    (Ok tt, self,
     Env w' ((trace v ++ [Event (CallCount store) None]) ++
             [Event (CallDelete (collection_name store)) (Some e)])).
Proof.
  intros Hs Hc Hn Hd. pose proof (clear_cases self v) as H.
  rewrite Hs, Hc in H. apply Nat.eqb_neq in Hn. rewrite Hn, Hd in H. exact H.
Qed.

(** When the count of the truth test raises, so does clearing, and the
    object is as it was. *)
Lemma clear_after_failed_count (self : t) (v : env B) (store : Chroma)
    (w' : World B) (e : exn) :
  vector_store self = Some store ->
  collection_count B store (world v) = (Raise e, w') ->
  clear_vector_store self v =
    (Raise e, self, Env w' (trace v ++ [Event (CallCount store) (Some e)])).
Proof.
  intros Hs Hc. pose proof (clear_cases self v) as H.
  rewrite Hs, Hc in H. exact H.
Qed.

Lemma clear_keeps_no_chain (self self' : t) (v v' : env B) (r : result unit) :
  qa_chain self = None ->
  clear_vector_store self v = (r, self', v') ->
  qa_chain self' = None.
Proof.
  intros Hnone. pose proof (clear_cases self v) as H.
  destruct (vector_store self) as [store|].
  - destruct (collection_count B store (world v)) as [[n|e] w1].
    + destruct (n =? 0).
      * rewrite H. intros E; injection E as _ <- _. exact Hnone.
      * destruct (delete_collection B _ w1) as [[[]|e] w2]; rewrite H;
          intros E; injection E as _ <- _; [reflexivity | exact Hnone].
    + rewrite H. intros E; injection E as _ <- _. exact Hnone.
  - rewrite H. intros E; injection E as _ <- _. exact Hnone.
Qed.

(** A call noted by the caller changes "no chain" only when it is a
    set-up that returned. *)
Lemma perform_keeps_no_chain (o : op) (self self' : t) (v v' : env B)
    (returned : result bool) :
  qa_chain self = None ->
  perform o self v = (returned, self', v') ->
  (exists b, returned = Ok b) /\
  (qa_chain self' = None \/ exists chunks, o = Setup chunks /\ returned = Ok true).
Proof.
  intros Hnone. destruct o as [chunks|question| |]; unfold perform.
  - unfold try_except at 1, bind at 1.
    destruct (setup_qa_pipeline chunks self v) as [[[chain|e] self1] v1] eqn:Hs;
      unfold ret; intros H; injection H as <- <- _.
    + split; [eauto|]. right. eauto.
    + split; [eauto|]. left.
      rewrite (setup_raises_keeps_chain _ _ _ _ _ _ Hs). exact Hnone.
  - unfold try_except, bind.
    rewrite (QueryFacts.query_chain_uninitialized question self v Hnone).
    unfold ret. intros H; injection H as <- <- _. split; [eauto | now left].
  - unfold try_except, bind.
    destruct (get_vector_store_info self v) as [[r self1] v1] eqn:Hi.
    rewrite (info_keeps_self _ _ _ _ _ Hi).
    destruct r; unfold ret; intros H; injection H as <- <- _;
      (split; [eauto | now left]).
  - unfold try_except, bind.
    destruct (clear_vector_store self v) as [[r self1] v1] eqn:Hc.
    pose proof (clear_keeps_no_chain _ _ _ _ _ Hnone Hc) as Hkeep.
    destruct r; unfold ret; intros H; injection H as <- <- _;
      (split; [eauto | now left]).
Qed.

Lemma run_keeps_no_chain (ops : list op) (self self' : t) (v v' : env B)
    (outcomes : list (op * bool)) :
  qa_chain self = None ->
  run ops self v = (Ok outcomes, self', v') ->
  (forall chunks, ~ In (Setup chunks, true) outcomes) ->
  qa_chain self' = None.
Proof.
  revert self v outcomes. induction ops as [|o ops IH]; intros self v outcomes Hnone.
  - simpl. unfold ret. intros H _. injection H as _ <- _. exact Hnone.
  - simpl. unfold bind at 1.
    destruct (perform o self v) as [[returned self1] v1] eqn:Hp.
    destruct (perform_keeps_no_chain _ _ _ _ _ _ Hnone Hp) as [[b ->] Hcase].
    unfold bind at 1.
    destruct (run ops self1 v1) as [[[outs|e] self2] v2] eqn:Hr; [|discriminate].
    unfold ret. intros H Hno. injection H as <- <- <-.
    destruct Hcase as [Hnone1 | (chunks & -> & Hb)].
    + apply (IH self1 v1 outs Hnone1 Hr).
      intros chunks Hin. apply (Hno chunks). now right.
    + injection Hb as ->. exfalso. apply (Hno chunks). now left.
Qed.

(** [ask_question] of main.py never raises. *)
Lemma ask_question_returns (question : string) (self : t) (v : env B) :
  exists r self' v', Main.ask_question question self v = (Ok r, self', v').
Proof.
  unfold Main.ask_question, try_except.
  destruct (query_chain question self v) as [[[r|e] self'] v']; unfold ret; eauto.
Qed.

(** The Clear button of main.py has no handler around
    [clear_vector_store]: when the count of the truth test raises, the
    button raises and the session keeps its keys; in every other case,
    whether or not the collection was deleted, the session is left as
    [initialize_session_state] builds it. *)
Lemma clear_button_cases (sess : Main.session) (v : env B) :
  match Main.qa_pipeline sess with
  | None =>
      Main.clear_button sess v = (Ok tt, Main.initialize_session_state, v)
  | Some pipeline =>
      match clear_vector_store pipeline v with
      | (Ok _, _, v') =>
          Main.clear_button sess v = (Ok tt, Main.initialize_session_state, v')
      | (Raise e, _, v') => Main.clear_button sess v = (Raise e, sess, v')
      end
  end.
Proof.
  unfold Main.clear_button, bind, get, put, ret, on_object.
  destruct (Main.qa_pipeline sess) as [pipeline|]; [|reflexivity].
  destruct (clear_vector_store pipeline v) as [[[[]|e] self'] v'];
    reflexivity.
Qed.

(** C4. On a pipeline object on which no set-up has returned, whatever was
    called on it since [__init__], [query_chain] fails with the
    not-initialised error for every question. *)
Theorem query_before_ingest_fails
    (api_key llm_base_url llm_model : option string) (embedding_model : string)
    (v0 v v' : env B) (pipeline self : t) (ops : list op)
    (outcomes : list (op * bool)) (question : string) :
  init api_key llm_base_url llm_model embedding_model tt v0 = (Ok pipeline, tt, v) ->
  run ops pipeline v = (Ok outcomes, self, v') ->
  (forall chunks, ~ In (Setup chunks, true) outcomes) ->
  query_chain question self v' = (Raise PipelineNotInitialized, self, v').
Proof.
  intros Hinit Hrun Hno.
  apply QueryFacts.query_chain_uninitialized.
  destruct (init_fresh _ _ _ _ _ _ _ Hinit) as [_ Hnone].
  exact (run_keeps_no_chain ops pipeline self v v' outcomes Hnone Hrun Hno).
Qed.

End Generic.

End LifeCycle.

(** ** The sources of an answer *)

Module SourceFacts.
Import QAPipeline Scenario.

Lemma add_source_app (acc : list string) (doc : document) :
  add_source acc doc = acc ++ shown_of doc.
Proof.
  unfold add_source, shown_of.
  destruct (page_content doc); [reflexivity|].
  destruct (content doc); [reflexivity | now rewrite app_nil_r].
Qed.

Lemma foldl_add_source (acc : list string) (docs : list document) :
  foldl add_source acc docs = acc ++ concat (map shown_of docs).
Proof.
  revert acc. induction docs as [|d docs IH]; intros acc; simpl.
  - now rewrite app_nil_r.
  - rewrite IH, add_source_app, <- app_assoc. reflexivity.
Qed.

(** The loop keeps at most one source per document. *)
Lemma length_format_sources (docs : list document) :
  length (format_sources docs) <= length docs.
Proof.
  unfold format_sources. rewrite foldl_add_source. simpl.
  induction docs as [|d docs IH]; simpl; [lia|].
  rewrite length_app. unfold shown_of at 1.
  destruct (page_content d); simpl; [lia|].
  destruct (content d); simpl; lia.
Qed.

(** When every document carries its text as [page_content], the sources
    are the texts, each one as [truncate] shows it, in the same order. *)
Lemma format_sources_texts (docs : list document) (texts : list string) :
  Forall2 (fun d text => page_content d = Some text) docs texts ->
  format_sources docs = map truncate texts.
Proof.
  unfold format_sources. rewrite foldl_add_source. simpl.
  induction 1 as [|d text docs texts Hd _ IH]; simpl; [reflexivity|].
  unfold shown_of at 1. rewrite Hd. simpl. now rewrite IH.
Qed.

Lemma truncate_short (text : string) :
  String.length text <= 200 -> truncate text = text.
Proof.
  intros H. unfold truncate.
  destruct (200 <? String.length text) eqn:E; [|reflexivity].
  apply Nat.ltb_lt in E. lia.
Qed.

Lemma truncate_long (text : string) :
  200 < String.length text ->
  truncate text = PyStr.slice_to 200 text +:+ "...".
Proof.
  intros H. unfold truncate.
  destruct (200 <? String.length text) eqn:E; [reflexivity|].
  apply Nat.ltb_ge in E. lia.
Qed.

Lemma slice_to_prefix (n : nat) (s : string) :
  String.prefix (PyStr.slice_to n s) s = true.
Proof.
  revert s. induction n as [|n IH]; intros [|c s]; simpl; try reflexivity.
  destruct (ascii_dec c c); [apply IH | congruence].
Qed.

(** The sources are the texts of the documents that carry one, each as
    [truncate] shows it, in the same order. *)
Lemma format_sources_texts_of (docs : list document) :
  format_sources docs = map truncate (texts_of docs).
Proof.
  unfold format_sources, texts_of. rewrite foldl_add_source. simpl.
  induction docs as [|d docs IH]; [reflexivity|].
  cbn [map concat omap list_omap]. rewrite IH.
  unfold shown_of, doc_text.
  destruct (page_content d); [reflexivity|].
  destruct (content d); reflexivity.
Qed.

Lemma texts_of_all (docs : list document) :
  Forall (fun d => is_Some (doc_text d)) docs ->
  length (texts_of docs) = length docs.
Proof.
  unfold texts_of. induction 1 as [|d docs [text Hd] _ IH]; [reflexivity|].
  cbn [omap list_omap]. rewrite Hd. simpl. now rewrite IH.
Qed.

Section Generic.
Context {B : Backend}.

(** C7. When the chain call of a query returns, the sources of the result
    are, in order, the texts of the retrieved documents: a text of at most
    200 characters as it is, a longer one cut to its first 200 characters
    with three dots appended. *)
Theorem sources_are_truncated_texts (question : string) (self : t) (v : env B)
    (chain : RetrievalQA) (out : chain_output) (w' : World B)
    (docs : list document) :
  qa_chain self = Some chain ->
  PyStr.strip question <> "" ->
  chain_call B chain question (world v) = (Ok out, w') ->
  output_source_documents out = Some docs ->
  exists r self' v',
    query_chain question self v = (Ok r, self', v') /\
    source_count r = length (sources r) /\
    length (sources r) = length (texts_of docs) /\
    (Forall (fun d => is_Some (doc_text d)) docs ->
     length (sources r) = length docs) /\
    forall i text, texts_of docs !! i = Some text ->
      exists shown,
        sources r !! i = Some shown /\
        (String.length text <= 200 -> shown = text) /\
        (200 < String.length text ->
           shown = PyStr.slice_to 200 text +:+ "..." /\
           String.length (PyStr.slice_to 200 text) = 200 /\
           String.prefix (PyStr.slice_to 200 text) text = true).
Proof.
  intros Hchain Hq Hcall Hdocs.
  rewrite (QueryFacts.query_chain_asks _ _ _ _ Hchain Hq), Hcall.
  do 3 eexists. split; [reflexivity|].
  unfold packaged. cbn [fst snd sources source_count]. rewrite Hdocs.
  rewrite format_sources_texts_of, length_map.
  split; [reflexivity|]. split; [reflexivity|]. split; [apply texts_of_all|].
  intros i text Hi. exists (truncate text). split.
  - rewrite list_lookup_fmap, Hi. reflexivity.
  - split; [apply truncate_short|]. intros Hlong.
    split; [now apply truncate_long|]. split.
    + apply StrFacts.length_slice_to. lia.
    + apply slice_to_prefix.
Qed.

End Generic.

End SourceFacts.

(** ** The index behind a pipeline, on the services of the specification *)

Module IndexFacts.
Import QAPipeline SpecBackend Scenario.

Section Services.
Variable fault : nat -> option exn.
Variable environ : string -> option string.
Variable uuid : nat -> string.
Variable distance : string -> string -> nat.
Variable generate : string -> string -> list string -> string.

Abbreviation B := (backend fault environ uuid distance generate).

Lemma setup_returns (chunks : list string) (self self1 : t) (v v1 : env B)
    (made : option RetrievalQA) :
  setup_qa_pipeline chunks self v = (Ok made, self1, v1) ->
  let name := new_name uuid (world v) in
  let store := {| collection_name := name |} in
  let old := match collections (world v) !! name with Some l => l | None => [] end in
  chunks <> [] /\
  vector_store self1 = Some store /\
  qa_chain self1 =
    Some {| retriever := store; search_k := 3; prompt := prompt_template |} /\
  collections (world v1) = <[name := old ++ chunks]> (collections (world v)).
Proof.
  unfold setup_qa_pipeline. destruct chunks as [|c chunks]; [discriminate|].
  LifeCycle.step_monad. unfold service. simpl.
  destruct (fault (S (clock (world v)))); simpl; [discriminate|].
  destruct (fault (S (S (clock (world v))))); simpl; [discriminate|].
  intros H. injection H as _ <- <-. simpl. repeat split. discriminate.
Qed.

Lemma setup_indexed (chunks : list string) (self self1 : t) (v v1 : env B)
    (made : option RetrievalQA) :
  setup_qa_pipeline chunks self v = (Ok made, self1, v1) ->
  indexed self1 (world v1) (held uuid (world v) ++ chunks).
Proof.
  intros Hsetup.
  destruct (setup_returns _ _ _ _ _ _ Hsetup) as (_ & _ & Hchain & Hcoll).
  eexists. split; [exact Hchain|]. split; [reflexivity|].
  simpl. rewrite Hcoll. apply lookup_insert_eq.
Qed.

Lemma held_fresh (w : service_state) :
  collections w !! new_name uuid w = None -> held uuid w = [].
Proof. unfold held. now intros ->. Qed.

Lemma length_nearest (k : nat) (question : string) (texts : list string) :
  length (nearest distance k question texts) <= k /\
  length (nearest distance k question texts) <= length texts.
Proof.
  unfold nearest. rewrite length_take.
  rewrite (Permutation_length (merge_sort_Permutation (closer distance question) texts)).
  lia.
Qed.

Lemma format_sources_documents (texts : list string) :
  format_sources (map as_document texts) = map truncate texts.
Proof.
  apply SourceFacts.format_sources_texts.
  induction texts; simpl; constructor; auto.
Qed.

(** A query changes neither the pipeline object nor the collections. *)
Lemma query_keeps_index (question : string) (self self' : t) (v v' : env B)
    (r : result QueryResult) :
  query_chain question self v = (r, self', v') ->
  self' = self /\ collections (world v') = collections (world v).
Proof.
  intros H. split; [exact (QueryFacts.query_chain_self _ _ _ _ _ _ H)|].
  destruct (qa_chain self) as [chain|] eqn:Hc.
  - destruct (decide (PyStr.strip question = "")) as [Hq|Hq].
    + rewrite (QueryFacts.query_chain_blank _ _ _ _ Hc Hq) in H.
      injection H as _ _ <-. reflexivity.
    + rewrite (QueryFacts.query_chain_asks _ _ _ _ Hc Hq) in H.
      injection H as _ _ <-. simpl. unfold service.
      destruct (fault (clock (world v))); simpl; [reflexivity|].
      unfold answer_question. simpl.
      destruct (collections (world v) !! _); reflexivity.
  - rewrite (QueryFacts.query_chain_uninitialized _ _ _ Hc) in H.
    injection H as _ _ <-. reflexivity.
Qed.

Lemma queries_keep_index (questions : list string) (self self' : t)
    (v v' : env B) (outcomes : list (op * bool)) (entries : list string) :
  indexed self (world v) entries ->
  run (map Query questions) self v = (Ok outcomes, self', v') ->
  indexed self' (world v') entries.
Proof.
  revert self v outcomes.
  induction questions as [|q questions IH]; intros self v outcomes Hidx; simpl.
  - unfold ret. intros H. injection H as _ <- <-. exact Hidx.
  - unfold bind at 1, try_except at 1, bind at 1.
    destruct (query_chain q self v) as [[r self1] v1] eqn:Hq.
    destruct (query_keeps_index _ _ _ _ _ _ Hq) as [-> Hcoll].
    assert (Hidx1 : indexed self (world v1) entries).
    { destruct Hidx as (chain & ? & ? & ?). exists chain. rewrite Hcoll. auto. }
    destruct r as [r|e]; unfold ret; unfold bind at 1;
      destruct (run (map Query questions) self v1) as [[[outs|e'] self2] v2] eqn:Hr;
      try discriminate; intros H; injection H as _ <- <-;
      exact (IH _ _ _ Hidx1 Hr).
Qed.

(** On an indexed pipeline, the sources of a result are at most three and
    at most the entries of the collection. *)
Lemma query_bound (question : string) (self self' : t) (v v' : env B)
    (r : QueryResult) (entries : list string) :
  indexed self (world v) entries ->
  query_chain question self v = (Ok r, self', v') ->
  source_count r <= 3 /\ source_count r <= length entries /\
  source_count r = length (sources r).
Proof.
  intros (chain & Hc & Hk & Hcoll) H.
  destruct (decide (PyStr.strip question = "")) as [Hq|Hq].
  - rewrite (QueryFacts.query_chain_blank _ _ _ _ Hc Hq) in H. discriminate.
  - rewrite (QueryFacts.query_chain_asks _ _ _ _ Hc Hq) in H.
    injection H as <- _ _. simpl. unfold service.
    destruct (fault (clock (world v))); simpl; [lia|].
    unfold answer_question. simpl. rewrite Hcoll. simpl.
    rewrite format_sources_documents, length_map, Hk.
    pose proof (length_nearest 3 question entries). lia.
Qed.



End Services.

End IndexFacts.

(** ** The chunker *)

Module ChunkerFacts.
Import Chunker.

Lemma length_join (pieces : list string) :
  String.length (join pieces) = total_length pieces.
Proof.
  induction pieces as [|p ps IH]; simpl; [reflexivity|].
  rewrite StrFacts.length_app, IH. reflexivity.
Qed.

Lemma total_length_app (l1 l2 : list string) :
  total_length (l1 ++ l2) = total_length l1 + total_length l2.
Proof. induction l1 as [|p ps IH]; simpl; [reflexivity | rewrite IH; lia]. Qed.

Lemma join_app (l1 l2 : list string) : join (l1 ++ l2) = join l1 +:+ join l2.
Proof.
  induction l1 as [|p ps IH]; simpl; [reflexivity|].
  rewrite IH, StrFacts.app_assoc. reflexivity.
Qed.

(** *** Splitting keeps the text *)

Lemma join_cons (p : string) (ps : list string) : join (p :: ps) = p +:+ join ps.
Proof. reflexivity. Qed.

Lemma join_split_at (sep : string) (skip : nat) (cur s : string) :
  join (split_at sep skip cur s) = cur +:+ s.
Proof.
  revert skip cur. induction s as [|c s IH]; intros skip cur; cbn [split_at].
  - reflexivity.
  - destruct skip as [|k].
    + destruct (String.prefix sep (String c s)).
      * rewrite join_cons, IH. reflexivity.
      * rewrite IH, StrFacts.app_assoc. reflexivity.
    + rewrite IH, StrFacts.app_assoc. reflexivity.
Qed.

Lemma join_filter_nonempty (l : list string) :
  join (List.filter nonempty l) = join l.
Proof.
  induction l as [|p ps IH]; simpl; [reflexivity|].
  destruct p; simpl; rewrite IH; reflexivity.
Qed.

(** Joining the pieces of a text gives the text back. *)
Lemma join_split_on (sep text : string) : join (split_on sep text) = text.
Proof. unfold split_on. rewrite join_filter_nonempty. apply join_split_at. Qed.

Lemma split_on_pieces_nonempty (sep text : string) :
  Forall (fun p => p <> "") (split_on sep text).
Proof.
  unfold split_on. apply List.Forall_forall. intros p Hin.
  apply filter_In in Hin as [_ Hp]. destruct p; [discriminate | discriminate].
Qed.

Lemma split_on_nonempty_text (sep text : string) :
  text <> "" -> split_on sep text <> [].
Proof.
  intros Hne Hnil. apply Hne. rewrite <- (join_split_on sep text), Hnil.
  reflexivity.
Qed.

(** With the empty separator the pieces are single characters. *)
Lemma split_at_characters (cur s : string) :
  String.length cur <= 1 ->
  Forall (within 1) (split_at "" 0 cur s).
Proof.
  revert cur. induction s as [|c s IH]; intros cur Hcur; simpl.
  - constructor; [exact Hcur | constructor].
  - constructor; [exact Hcur|]. apply IH. simpl. lia.
Qed.

Lemma split_on_characters (text : string) :
  Forall (within 1) (split_on "" text).
Proof.
  unfold split_on. apply List.Forall_forall. intros p Hin.
  apply filter_In in Hin as [Hin _].
  pose proof (split_at_characters "" text) as H.
  rewrite List.Forall_forall in H. apply H; [simpl; lia | exact Hin].
Qed.

Lemma occurs_empty (s : string) : occurs "" s = true.
Proof. destruct s; reflexivity. Qed.

Section Sizes.
Variable chunk_size chunk_overlap : nat.

Abbreviation seed := (Chunker.seed chunk_size chunk_overlap).
Abbreviation merge := (Chunker.merge chunk_size chunk_overlap).
Abbreviation regroup := (Chunker.regroup chunk_size chunk_overlap).
Abbreviation split_text := (Chunker.split_text chunk_size chunk_overlap).

(** *** Every chunk is within [chunk_size] *)

(** The seed leaves room for the next piece, or is empty. *)
Lemma seed_room (len : nat) (current : list string) :
  total_length (seed len current) + len <= chunk_size \/
  total_length (seed len current) = 0.
Proof.
  induction current as [|p ps IH]; [now right|].
  cbn [Chunker.seed].
  destruct (chunk_overlap <? total_length (p :: ps)) eqn:E1; [exact IH|].
  destruct (chunk_size <? total_length (p :: ps) + len) eqn:E2.
  - destruct (0 <? total_length (p :: ps)) eqn:E3; [exact IH|].
    cbn [orb andb]. right. apply Nat.ltb_ge in E3. lia.
  - cbn [orb andb]. left. apply Nat.ltb_ge in E2. lia.
Qed.

Lemma emit_within (current : list string) :
  total_length current <= chunk_size ->
  Forall (within chunk_size) (emit current).
Proof.
  intros H. unfold emit. pose proof (length_join current) as Hlen.
  destruct (join current) eqn:E; constructor; [|constructor].
  unfold within. rewrite Hlen. exact H.
Qed.

Lemma merge_within (current pieces : list string) :
  total_length current <= chunk_size ->
  Forall (within chunk_size) pieces ->
  Forall (within chunk_size) (merge current pieces).
Proof.
  intros Hcur Hpieces. revert current Hcur.
  induction Hpieces as [|d rest Hd _ IH]; intros current Hcur.
  - apply emit_within, Hcur.
  - cbn [Chunker.merge].
    destruct (chunk_size <? total_length current + String.length d) eqn:E.
    + apply Forall_app. split; [apply emit_within, Hcur|].
      apply IH. rewrite total_length_app. simpl.
      unfold within in Hd.
      destruct (seed_room (String.length d) current); lia.
    + apply IH. rewrite total_length_app. simpl.
      apply Nat.ltb_ge in E. lia.
Qed.

Lemma regroup_within (finer : string -> list string) (good pieces : list string) :
  Forall (within chunk_size) good ->
  (forall p, In p pieces -> Forall (within chunk_size) (finer p)) ->
  Forall (within chunk_size) (regroup finer good pieces).
Proof.
  revert good. induction pieces as [|p rest IH]; intros good Hgood Hfiner.
  - apply merge_within; [simpl; lia | exact Hgood].
  - cbn [Chunker.regroup].
    destruct (String.length p <? chunk_size) eqn:E.
    + apply IH.
      * apply Forall_app. split; [exact Hgood|].
        constructor; [|constructor]. apply Nat.ltb_lt in E. unfold within. lia.
      * intros q Hq. apply Hfiner. now right.
    + apply Forall_app. split; [apply merge_within; [simpl; lia | exact Hgood]|].
      apply Forall_app. split; [apply Hfiner; now left|].
      apply IH; [constructor|]. intros q Hq. apply Hfiner. now right.
Qed.

(** When the empty string is among the separators, every chunk is within
    the chunk size. *)
Lemma split_text_within (separators : list string) (text : string) :
  1 <= chunk_size ->
  In "" separators ->
  Forall (within chunk_size) (split_text separators text).
Proof.
  intros Hsize. revert text.
  induction separators as [|sep rest IH]; intros text Hin; [destruct Hin|].
  cbn [Chunker.split_text].
  destruct sep as [|c sep].
  - rewrite occurs_empty. cbn [nonempty PyStr.truthy].
    apply regroup_within; [constructor|].
    intros p Hp. constructor; [|constructor].
    pose proof (split_on_characters text) as H.
    rewrite List.Forall_forall in H. specialize (H p Hp). unfold within in *. lia.
  - assert (Hrest : In "" rest) by (destruct Hin as [H|H]; [discriminate | exact H]).
    destruct (occurs (String c sep) text); [|now apply IH].
    cbn [nonempty PyStr.truthy].
    apply regroup_within; [constructor|].
    intros p _. destruct rest as [|sep' rest']; [destruct Hrest|].
    now apply IH.
Qed.

(** *** A non-empty text gives chunks *)

Lemma seed_pieces_nonempty (len : nat) (current : list string) :
  Forall (fun p => p <> "") current ->
  Forall (fun p => p <> "") (seed len current).
Proof.
  induction 1 as [|p ps Hp Hps IH]; [constructor|].
  cbn [Chunker.seed]. destruct (_ || _); [exact IH | now constructor].
Qed.

Lemma join_nonempty (pieces : list string) :
  pieces <> [] -> Forall (fun p => p <> "") pieces -> join pieces <> "".
Proof.
  intros Hne Hall. destruct Hall as [|p ps Hp _]; [congruence|].
  simpl. intros E. apply StrFacts.app_eq_nil in E as [E _]. contradiction.
Qed.

Lemma merge_nonempty (current pieces : list string) :
  Forall (fun p => p <> "") current ->
  Forall (fun p => p <> "") pieces ->
  current ++ pieces <> [] ->
  merge current pieces <> [].
Proof.
  intros Hcur Hpieces. revert current Hcur.
  induction Hpieces as [|d rest Hd _ IH]; intros current Hcur Hne.
  - cbn [Chunker.merge]. unfold emit. rewrite app_nil_r in Hne.
    pose proof (join_nonempty current Hne Hcur).
    destruct (join current); [congruence | discriminate].
  - cbn [Chunker.merge].
    assert (Hstep : forall l, Forall (fun p => p <> "") l ->
                      merge (l ++ [d]) rest <> []).
    { intros l Hl. apply IH.
      - apply Forall_app. split; [exact Hl | now constructor].
      - destruct l; discriminate. }
    destruct (chunk_size <? _).
    + intros E. apply app_eq_nil in E as [_ E]. revert E.
      apply Hstep, seed_pieces_nonempty, Hcur.
    + apply Hstep, Hcur.
Qed.

Lemma regroup_nonempty (finer : string -> list string) (good pieces : list string) :
  (forall p, p <> "" -> finer p <> []) ->
  Forall (fun p => p <> "") good ->
  Forall (fun p => p <> "") pieces ->
  good ++ pieces <> [] ->
  regroup finer good pieces <> [].
Proof.
  intros Hfiner Hgood Hpieces. revert good Hgood.
  induction Hpieces as [|p rest Hp _ IH]; intros good Hgood Hne.
  - cbn [Chunker.regroup]. apply merge_nonempty; [constructor | exact Hgood|].
    rewrite app_nil_r in Hne. exact Hne.
  - cbn [Chunker.regroup]. destruct (String.length p <? chunk_size).
    + apply IH.
      * apply Forall_app. split; [exact Hgood | now constructor].
      * destruct good; discriminate.
    + intros E. apply app_eq_nil in E as [_ E].
      apply app_eq_nil in E as [E _]. revert E. now apply Hfiner.
Qed.

Lemma split_text_nonempty (separators : list string) (text : string) :
  text <> "" -> split_text separators text <> [].
Proof.
  revert text. induction separators as [|sep rest IH]; intros text Hne.
  - discriminate.
  - cbn [Chunker.split_text]. destruct (occurs sep text); [|now apply IH].
    apply regroup_nonempty.
    + intros p Hp. destruct (nonempty sep); [|discriminate].
      destruct rest; [discriminate | now apply IH].
    + constructor.
    + apply split_on_pieces_nonempty.
    + simpl. now apply split_on_nonempty_text.
Qed.

End Sizes.

(** *** A word longer than the chunk size *)

Lemma split_at_empty (cur s : string) :
  split_at "" 0 cur s = cur :: chars s.
Proof.
  revert cur. induction s as [|c s IH]; intros cur; [reflexivity|].
  cbn [split_at chars]. change (String.prefix "" (String c s)) with true.
  cbn [String.length Nat.sub]. rewrite IH. reflexivity.
Qed.

Lemma filter_chars (s : string) : List.filter nonempty (chars s) = chars s.
Proof. induction s as [|c s IH]; simpl; [reflexivity | now rewrite IH]. Qed.

Lemma split_on_empty (s : string) : split_on "" s = chars s.
Proof. unfold split_on. rewrite split_at_empty. simpl. apply filter_chars. Qed.

Lemma join_chars (s : string) : join (chars s) = s.
Proof.
  induction s as [|c s IH]; [reflexivity|].
  cbn [chars]. rewrite join_cons, IH. reflexivity.
Qed.

Lemma length_chars (s : string) : length (chars s) = String.length s.
Proof. induction s as [|c s IH]; simpl; [reflexivity | now rewrite IH]. Qed.

Lemma total_length_chars (s : string) : total_length (chars s) = String.length s.
Proof. rewrite <- length_join, join_chars. reflexivity. Qed.

Lemma take_chars (n : nat) (s : string) :
  take n (chars s) = chars (PyStr.slice_to n s).
Proof.
  revert s. induction n as [|n IH]; intros [|c s]; simpl; try reflexivity.
  now rewrite IH.
Qed.

Lemma drop_chars (n : nat) (s : string) :
  drop n (chars s) = chars (PyStr.drop n s).
Proof.
  revert s. induction n as [|n IH]; intros [|c s]; simpl; try reflexivity.
  apply IH.
Qed.

Lemma chars_pieces_short (size : nat) (s : string) :
  1 < size -> Forall (fun p => String.length p < size) (chars s).
Proof. intros H. induction s; simpl; constructor; simpl; auto. Qed.

Lemma occurs_other_head (c : ascii) (rest text : string) :
  (forall before after, text <> before +:+ String c after) ->
  occurs (String c rest) text = false.
Proof.
  induction text as [|a s IH]; intros Hno; [reflexivity|].
  cbn [occurs String.prefix].
  destruct (ascii_dec c a) as [->|Hne].
  - exfalso. apply (Hno "" s). reflexivity.
  - simpl. apply IH. intros before after E.
    apply (Hno (String a before) after). rewrite E. reflexivity.
Qed.

Lemma single_word_without (c : ascii) (text : string) :
  c = " "%char \/ c = "010"%char ->
  single_word text ->
  forall before after, text <> before +:+ String c after.
Proof.
  intros Hc. induction text as [|a s IH]; intros Hword before after E.
  - destruct before; discriminate.
  - destruct Hword as (Hsp & Hnl & Hword).
    destruct before as [|b before].
    + rewrite StrFacts.app_nil_l in E. injection E as -> _.
      destruct Hc; contradiction.
    + rewrite StrFacts.app_cons in E. injection E as _ E.
      exact (IH Hword before after E).
Qed.

Section Word.
Variable chunk_size chunk_overlap : nat.

Abbreviation seed := (Chunker.seed chunk_size chunk_overlap).
Abbreviation merge := (Chunker.merge chunk_size chunk_overlap).
Abbreviation regroup := (Chunker.regroup chunk_size chunk_overlap).

Lemma regroup_all_good (finer : string -> list string) (good pieces : list string) :
  Forall (fun p => String.length p < chunk_size) pieces ->
  regroup finer good pieces = merge [] (good ++ pieces).
Proof.
  intros H. revert good. induction H as [|p ps Hp _ IH]; intros good.
  - cbn [Chunker.regroup]. now rewrite app_nil_r.
  - cbn [Chunker.regroup]. apply Nat.ltb_lt in Hp. rewrite Hp.
    rewrite IH, <- app_assoc. reflexivity.
Qed.

(** Pieces that fit are taken into the chunk being built. *)
Lemma merge_fill (current pieces more : list string) :
  total_length current + total_length pieces <= chunk_size ->
  merge current (pieces ++ more) = merge (current ++ pieces) more.
Proof.
  revert current. induction pieces as [|d ps IH]; intros current H.
  - now rewrite app_nil_r.
  - simpl in H. cbn [app Chunker.merge].
    assert (E : (chunk_size <? total_length current + String.length d) = false)
      by (apply Nat.ltb_ge; lia).
    rewrite E, IH.
    + rewrite <- app_assoc. reflexivity.
    + rewrite total_length_app. simpl. lia.
Qed.

(** The seed taken from a chunk of characters is its last
    [chunk_overlap] characters. *)
Lemma seed_chars (len : nat) (s : string) :
  chunk_overlap + len <= chunk_size ->
  seed len (chars s) = drop (String.length s - chunk_overlap) (chars s).
Proof.
  intros Hroom. induction s as [|c s IH]; [reflexivity|].
  cbn [chars Chunker.seed]. change (String c "" :: chars s) with (chars (String c s)).
  rewrite total_length_chars.
  destruct (chunk_overlap <? String.length (String c s)) eqn:E.
  - cbn [orb]. rewrite IH. apply Nat.ltb_lt in E. simpl in E.
    replace (String.length (String c s) - chunk_overlap)
      with (S (String.length s - chunk_overlap)) by (simpl; lia).
    reflexivity.
  - apply Nat.ltb_ge in E.
    assert (E2 : (chunk_size <? String.length (String c s) + len) = false)
      by (apply Nat.ltb_ge; lia).
    rewrite E2. cbn [orb andb].
    replace (String.length (String c s) - chunk_overlap) with 0 by lia.
    reflexivity.
Qed.

Lemma emit_chars (s : string) : s <> "" -> emit (chars s) = [s].
Proof. intros H. unfold emit. rewrite join_chars. destruct s; congruence. Qed.

(** A run of characters one longer than the chunk size becomes two
    chunks: its first [chunk_size] characters, and the last
    [chunk_overlap] of those followed by the last character. *)
Lemma merge_one_more (s : string) :
  String.length s = S chunk_size ->
  1 <= chunk_size ->
  chunk_overlap < chunk_size ->
  merge [] (chars s) =
    [PyStr.slice_to chunk_size s; PyStr.drop (chunk_size - chunk_overlap) s].
Proof.
  intros Hlen Hsize Hover.
  rewrite <- (take_drop chunk_size (chars s)).
  rewrite merge_fill.
  2:{ simpl. rewrite take_chars, total_length_chars.
      rewrite StrFacts.length_slice_to; lia. }
  cbn [app]. rewrite take_chars, drop_chars.
  assert (Hhead : String.length (PyStr.slice_to chunk_size s) = chunk_size)
    by (apply StrFacts.length_slice_to; lia).
  pose proof (StrFacts.length_drop chunk_size s) as Hrest.
  destruct (PyStr.drop chunk_size s) as [|d tail] eqn:Hdrop;
    [simpl in Hrest; lia|].
  assert (Htail : tail = "")
    by (destruct tail; [reflexivity | simpl in Hrest; lia]).
  subst tail. cbn [chars Chunker.merge].
  rewrite total_length_chars, Hhead.
  assert (E : (chunk_size <? chunk_size + String.length (String d "")) = true)
    by (apply Nat.ltb_lt; simpl; lia).
  rewrite E. rewrite emit_chars.
  2:{ intros E0. rewrite E0 in Hhead. simpl in Hhead. lia. }
  cbn [app]. f_equal.
  rewrite seed_chars by (simpl; lia). rewrite Hhead.
  change [String d ""] with (chars (String d "")).
  rewrite <- Hdrop, <- take_chars, <- drop_chars.
  assert (Hlt : length (take chunk_size (chars s)) = chunk_size).
  { rewrite length_take, length_chars. lia. }
  rewrite <- (drop_app_le (take chunk_size (chars s)) (drop chunk_size (chars s))
                (chunk_size - chunk_overlap)) by lia.
  rewrite take_drop, drop_chars.
  unfold emit. rewrite join_chars.
  pose proof (StrFacts.length_drop (chunk_size - chunk_overlap) s) as Hlast.
  destruct (PyStr.drop (chunk_size - chunk_overlap) s); [|reflexivity].
  simpl in Hlast. lia.
Qed.

End Word.

Lemma separators_end_with_empty : In "" PDFLoader.separators.
Proof. unfold PDFLoader.separators. simpl. tauto. Qed.

(** A word one character longer than the chunk size is cut into its
    first [chunk_size] characters and its last [chunk_overlap + 1]. *)
Lemma chunk_long_word (text : string) (chunk_size chunk_overlap : nat) :
  single_word text ->
  String.length text = S chunk_size ->
  2 <= chunk_size ->
  chunk_overlap < chunk_size ->
  chunk text chunk_size chunk_overlap =
    [PyStr.slice_to chunk_size text;
     PyStr.drop (chunk_size - chunk_overlap) text].
Proof.
  intros Hword Hlen Hsize Hover.
  unfold chunk, PDFLoader.separators, PyStr.newline.
  rewrite StrFacts.app_cons, StrFacts.app_nil_l.
  cbn [Chunker.split_text].
  rewrite (occurs_other_head "010" _ text)
    by (apply single_word_without; [now right | exact Hword]).
  rewrite (occurs_other_head "010" _ text)
    by (apply single_word_without; [now right | exact Hword]).
  rewrite (occurs_other_head " " _ text)
    by (apply single_word_without; [now left | exact Hword]).
  rewrite occurs_empty. cbn [nonempty PyStr.truthy].
  rewrite split_on_empty, regroup_all_good by (apply chars_pieces_short; lia).
  cbn [app]. apply merge_one_more; lia.
Qed.

Lemma single_word_repeat (c : ascii) (n : nat) :
  c <> " "%char -> c <> "010"%char -> single_word (PyStr.repeat_char c n).
Proof. intros Hsp Hnl. induction n as [|n IH]; simpl; auto. Qed.

(** C5, as the model of the chunker has it. For every non-empty text and
    every chunk size of at least 1, the splitting step of [load_pdf] gives
    a non-empty list of chunks and every chunk has at most [chunk_size]
    characters: the separators end with the empty string, so no token is
    atomic.  A single word one character longer than the chunk size, such
    as a word of 501 characters for the size 500 and the overlap 50, gives
    two chunks: its first 500 characters and its last 51. *)
Theorem chunks_are_within_chunk_size (text : string)
    (chunk_size chunk_overlap : nat) :
  text <> "" ->
  1 <= chunk_size ->
  PDFLoader.split_text
    (PDFLoader.init RecursiveCharacterTextSplitter chunk_size chunk_overlap) text
    = Ok (chunk text chunk_size chunk_overlap) /\
  chunk text chunk_size chunk_overlap <> [] /\
  Forall (within chunk_size) (chunk text chunk_size chunk_overlap) /\
  (single_word text ->
   String.length text = S chunk_size ->
   2 <= chunk_size ->
   chunk_overlap < chunk_size ->
   chunk text chunk_size chunk_overlap =
     [PyStr.slice_to chunk_size text;
      PyStr.drop (chunk_size - chunk_overlap) text]).
Proof.
  intros Htext Hsize. split; [reflexivity|]. split; [|split].
  - now apply split_text_nonempty.
  - apply split_text_within; [exact Hsize | apply separators_end_with_empty].
  - now apply chunk_long_word.
Qed.

(** C5 fails as stated: the word of 501 letters is not kept as one chunk
    longer than the chunk size. *)
Lemma long_word_is_not_one_chunk :
  ~ exists c, chunk Examples.long_word 500 50 = [c] /\ 500 < String.length c.
Proof.
  intros (c & H & _).
  assert (E : length (chunk Examples.long_word 500 50) = 2)
    by (vm_compute; reflexivity).
  rewrite H in E. discriminate.
Qed.

End ChunkerFacts.

(** ** Ingesting a document *)

Module IngestFacts.
Import QAPipeline Condition.

Section Generic.
Context {B : Backend}.
Variable RecursiveCharacterTextSplitter :
  nat -> nat -> list string -> string -> result (list string).
Variable tmp_name : string.

Lemma setup_without_chunks (self : t) (v : env B) :
  setup_qa_pipeline [] self v =
    (Raise (Exn ValueError "No text chunks provided"), self, v).
Proof. reflexivity. Qed.

Lemma load_blank_document (uploaded : Main.uploaded_file)
    (pages : list PDFLoader.page) :
  Main.getvalue uploaded = Ok pages ->
  Forall blank_page pages ->
  exists e,
    EmptyDocument e /\
    PDFLoader.load_pdf
      (PDFLoader.init RecursiveCharacterTextSplitter 500 50)
      (fun p => if String.eqb p (tmp_name +:+ ".pdf")
                then Some (Main.getvalue uploaded) else None)
      (tmp_name +:+ ".pdf") = Raise e.
Proof.
  intros Hfile Hblank. unfold PDFLoader.load_pdf.
  rewrite String.eqb_refl, StrFacts.tmp_path_is_pdf, Hfile.
  rewrite (LoaderFacts.body_blank_document _ pages Hblank).
  cbn [negb exn_str]. eexists. split; [|reflexivity].
  destruct pages; [now left | now right].
Qed.

(** C9. Ingesting a document whose pages all give empty or whitespace-only
    text fails with the empty-document error; the session keeps the
    pipeline it had, no service is called and nothing is created: session,
    outside world and trace are as before.  [process_pdf] reports the
    failure as no result. *)
Theorem blank_document_is_not_ingested (uploaded : Main.uploaded_file)
    (pages : list PDFLoader.page) (sess : Main.session) (v : env B) :
  Main.getvalue uploaded = Ok pages ->
  Forall blank_page pages ->
  (exists e,
     EmptyDocument e /\
     Main.ingest RecursiveCharacterTextSplitter tmp_name uploaded sess v
       = (Raise e, sess, v)) /\
  Main.process_pdf RecursiveCharacterTextSplitter tmp_name uploaded sess v
    = (Ok None, sess, v).
Proof.
  intros Hfile Hblank.
  destruct (load_blank_document uploaded pages Hfile Hblank) as (e & He & Hload).
  assert (Hingest :
    Main.ingest RecursiveCharacterTextSplitter tmp_name uploaded sess v
      = (Raise e, sess, v)).
  { unfold Main.ingest, bind at 1, lift_result. rewrite Hload. reflexivity. }
  split; [eauto|].
  unfold Main.process_pdf, try_except, Main.process_pdf_body.
  destruct (_ <? _)%N; [reflexivity|].
  unfold bind at 1. rewrite Hingest. reflexivity.
Qed.

End Generic.

End IngestFacts.

(** ** Clearing when the deletion fails *)

Module ClearFacts.
Import QAPipeline SpecBackend Scenario Condition Examples.

(** C2 does not hold when the deletion raises. The error is dropped and
    clearing returns, but the object keeps its store and its chain, and the
    next question is answered from the collection that was to be cleared
    instead of failing with the not-initialised error. *)
Theorem clear_with_failed_deletion_keeps_answering :
  is_ok stale_set_up.1.1 = true /\
  stale_cleared.1.1 = Ok tt /\
  qa_chain stale_cleared.1.2 = Some chain /\
  (query_chain (B:=deletion_fails) "What is the capital of France?"
     stale_cleared.1.2 stale_cleared.2).1.1 =
    Ok {| answer :=
            generate prompt_template "What is the capital of France?"
              ["The Seine runs through it."; "Paris is the capital of France.";
               "Paris is the capital of France."];
          sources :=
            ["The Seine runs through it."; "Paris is the capital of France.";
             "Paris is the capital of France."];
          source_count := 3 |}.
Proof. repeat split; vm_compute; reflexivity. Qed.

End ClearFacts.

(** ** The properties at concrete inputs *)

Module Checks.
Import QAPipeline SpecBackend Scenario Condition Examples.

Lemma query_chain_absorbs_errors_witness :
  exists message,
    (query_chain (B:=unreachable) "What is this about?" ready (start unreachable empty_world)).1.1
      = Ok {| answer := message; sources := []; source_count := 0 |} /\
    message <> "" /\
    String.prefix "Error processing question: " message = true.
Proof.
  pose (run := query_chain (B:=unreachable) "What is this about?" ready
                 (start unreachable empty_world)).
  apply (QueryFacts.query_chain_absorbs_errors (B:=unreachable)
           "What is this about?" ready run.1.2 (start unreachable empty_world) run.2
           chain run.1.1).
  - reflexivity.
  - vm_compute. reflexivity.
  - exists chain, "What is this about?", api_error. vm_compute. left. reflexivity.
Defined.

(** C3 fails as stated: on a pipeline that was never set up, the empty
    question fails with the not-initialised error, not with the
    empty-question error. *)
Lemma blank_question_before_setup :
  query_chain (B:=healthy) "" fresh (start healthy empty_world)
    = (Raise PipelineNotInitialized, fresh, start healthy empty_world) /\
  PipelineNotInitialized <> EmptyQuestion.
Proof. split; [reflexivity | discriminate]. Qed.

Lemma blank_question_is_rejected_witness :
  query_chain (B:=healthy) "   " ready (start healthy empty_world)
    = (Raise EmptyQuestion, ready, start healthy empty_world) /\
  new_events (start healthy empty_world)
    (query_chain (B:=healthy) "   " ready (start healthy empty_world)).2 = [].
Proof.
  apply (QueryFacts.blank_question_is_rejected (B:=healthy) "   " ready
           (start healthy empty_world) chain).
  - reflexivity.
  - vm_compute. reflexivity.
Defined.

Lemma query_before_ingest_fails_witness :
  query_chain (B:=store_down) "What is this about?"
    after_early_calls.1.2 after_early_calls.2
    = (Raise PipelineNotInitialized, after_early_calls.1.2, after_early_calls.2).
Proof.
  apply (LifeCycle.query_before_ingest_fails (B:=store_down)
           None None None model_name (start store_down empty_world) after_init.2
           after_early_calls.2 fresh after_early_calls.1.2 early_calls
           [(Setup [], false); (Query "What is this about?", false);
            (Clear, true); (Info, true);
            (Setup ["Paris is the capital of France."], false)]
           "What is this about?").
  - vm_compute. reflexivity.
  - vm_compute. reflexivity.
  - intros chunks Hin. simpl in Hin.
    repeat (destruct Hin as [Hin|Hin]; [discriminate|]). exact Hin.
Defined.

Lemma chunks_are_within_chunk_size_witness :
  Chunker.chunk long_word 500 50 <> [] /\
  Forall (Chunker.within 500) (Chunker.chunk long_word 500 50) /\
  Chunker.chunk long_word 500 50 =
    [PyStr.repeat_char "a" 500; PyStr.repeat_char "a" 51].
Proof.
  assert (Htext : long_word <> "") by discriminate.
  assert (Hsize : 1 <= 500) by lia.
  destruct (ChunkerFacts.chunks_are_within_chunk_size long_word 500 50
              Htext Hsize)
    as (_ & Hne & Hwithin & Hword).
  split; [exact Hne|]. split; [exact Hwithin|].
  rewrite Hword.
  - vm_compute. reflexivity.
  - apply ChunkerFacts.single_word_repeat; discriminate.
  - vm_compute. reflexivity.
  - lia.
  - lia.
Defined.



Lemma sources_are_truncated_texts_witness :
  exists r,
    (query_chain (B:=healthy) "What is this about?" ready
       (start healthy library)).1.1 = Ok r /\
    source_count r = 2 /\
    sources r !! 0 = Some "A short chunk." /\
    sources r !! 1 = Some (PyStr.slice_to 200 long_text +:+ "...").
Proof.
  destruct (SourceFacts.sources_are_truncated_texts (B:=healthy)
              "What is this about?" ready (start healthy library) chain
              {| output_result :=
                   Some (generate prompt_template "What is this about?"
                           ["A short chunk."; long_text]);
                 output_source_documents :=
                   Some (map as_document ["A short chunk."; long_text]) |}
              (tick library)
              (map as_document ["A short chunk."; long_text]))
    as (r & self' & v' & Hrun & Hcount & Hlen & _ & Hshown).
  - reflexivity.
  - vm_compute. discriminate.
  - vm_compute. reflexivity.
  - reflexivity.
  - exists r. rewrite Hrun. split; [reflexivity|].
    split; [rewrite Hcount, Hlen; reflexivity|].
    destruct (Hshown 0 "A short chunk." eq_refl) as (s0 & H0 & Hshort & _).
    destruct (Hshown 1 long_text eq_refl) as (s1 & H1 & _ & Hlong).
    rewrite H0, H1. split.
    + f_equal. apply Hshort. vm_compute. lia.
    + f_equal. apply Hlong. vm_compute. lia.
Defined.



Lemma blank_document_is_not_ingested_witness :
  (exists e,
     EmptyDocument e /\
     Main.ingest (B:=healthy) Chunker.RecursiveCharacterTextSplitter
       "/tmp/tmpk3v9x2" scanned Main.initialize_session_state
       (start healthy empty_world)
       = (Raise e, Main.initialize_session_state, start healthy empty_world)) /\
  Main.process_pdf (B:=healthy) Chunker.RecursiveCharacterTextSplitter
    "/tmp/tmpk3v9x2" scanned Main.initialize_session_state
    (start healthy empty_world)
    = (Ok None, Main.initialize_session_state, start healthy empty_world).
Proof.
  apply (IngestFacts.blank_document_is_not_ingested (B:=healthy)
           Chunker.RecursiveCharacterTextSplitter "/tmp/tmpk3v9x2" scanned
           [Ok ""; Ok ("  " +:+ PyStr.newline +:+ " ")]).
  - reflexivity.
  - repeat constructor; eexists; (split; [reflexivity | vm_compute; reflexivity]).
Defined.

Lemma load_pdf_wraps_failures_witness :
  exists e,
    PDFLoader.load_pdf loader disk "Report.PDF" = Raise e /\
    exn_type e = PlainException /\
    exn_str e = "Error processing PDF: " +:+ exn_str broken_reader /\
    String.prefix "Error processing PDF: " (exn_str e) = true.
Proof.
  apply (LoaderFacts.load_pdf_wraps_failures loader disk "Report.PDF"
           (Raise broken_reader) broken_reader).
  - reflexivity.
  - vm_compute. reflexivity.
  - reflexivity.
Defined.

End Checks.

(** ** Further properties of the loader *)

Module LoaderExtras.
Import PDFLoader Derived.

(** X1. The class of the exception [load_pdf] raises tells its cause: a
    missing file, a name that is not a PDF's (whatever the file holds), or
    a failure while the file is processed; it raises nothing else, and the
    missing file is reported before the name is looked at. *)
Theorem load_pdf_failure_kinds (self : t) (fs : file_system) (file_path : string) :
  match load_pdf self fs file_path with
  | Ok chunks =>
      exists file,
        fs file_path = Some file /\
        PyStr.endswith (PyStr.lower file_path) ".pdf" = true /\
        load_pdf_body self file = Ok chunks
  | Raise e =>
      match exn_type e with
      | FileNotFoundError =>
          fs file_path = None /\
          exn_str e = "PDF file not found: " +:+ file_path
      | ValueError =>
          is_Some (fs file_path) /\
          PyStr.endswith (PyStr.lower file_path) ".pdf" = false /\
          exn_str e = "File must be a PDF: " +:+ file_path
      | PlainException =>
          exists file inner,
            fs file_path = Some file /\
            PyStr.endswith (PyStr.lower file_path) ".pdf" = true /\
            load_pdf_body self file = Raise inner /\
            e = wrapped inner
      | LibraryError _ => False
      end
  end.
Proof.
  unfold load_pdf. destruct (fs file_path) as [file|] eqn:Hfs.
  - destruct (PyStr.endswith (PyStr.lower file_path) ".pdf") eqn:Hpdf; simpl.
    + destruct (load_pdf_body self file) as [chunks|inner] eqn:Hbody; simpl; eauto 6.
    + eauto.
  - simpl. auto.
Qed.

Lemma lower_pdf_suffix (stem ext : string) :
  PyStr.lower ext = ".pdf" ->
  PyStr.endswith (PyStr.lower (stem +:+ ext)) ".pdf" = true.
Proof.
  intros H. rewrite StrFacts.lower_app, H. apply StrFacts.endswith_app.
Qed.

(** X2. The test of the file name ignores case: a name whose extension reads
    ".pdf" once lowered is processed, and what [load_pdf] gives is what
    the processing gives, failures wrapped. *)
Theorem load_pdf_ignores_case (self : t) (fs : file_system)
    (stem ext : string) (file : pdf_file) :
  PyStr.lower ext = ".pdf" ->
  fs (stem +:+ ext) = Some file ->
  load_pdf self fs (stem +:+ ext) =
    match load_pdf_body self file with
    | Ok chunks => Ok chunks
    | Raise inner => Raise (wrapped inner)
    end.
Proof.
  intros Hext Hfs. unfold load_pdf.
  rewrite Hfs, (lower_pdf_suffix stem ext Hext). reflexivity.
Qed.

Lemma extract_skips_empty (before after : list page) (text_content : string) :
  extract_pages (before ++ Ok "" :: after) text_content =
  extract_pages (before ++ after) text_content.
Proof.
  revert text_content. induction before as [|p before IH]; intros acc.
  - reflexivity.
  - simpl. destruct p as [t|e]; [|reflexivity].
    destruct (PyStr.truthy t); apply IH.
Qed.

(** X3. A page without any text is passed over: put anywhere into a document
    that has other pages, it changes nothing of what the processing gives,
    chunks or failure. *)
Theorem empty_page_changes_nothing (self : t) (before after : list page) :
  before ++ after <> [] ->
  load_pdf_body self (Ok (before ++ Ok "" :: after)) =
  load_pdf_body self (Ok (before ++ after)).
Proof.
  intros Hne. unfold load_pdf_body.
  rewrite extract_skips_empty.
  destruct (before ++ after) as [|p ps] eqn:E; [congruence|].
  destruct before; reflexivity.
Qed.

Lemma extract_texts (texts : list string) (text_content : string) :
  extract_pages (map Ok texts) text_content = Ok (text_content +:+ lines_of texts).
Proof.
  revert text_content. induction texts as [|t texts IH]; intros acc; simpl.
  - now rewrite StrFacts.app_nil_r.
  - destruct (PyStr.truthy t); rewrite IH; [|reflexivity].
    rewrite !StrFacts.app_assoc. reflexivity.
Qed.

Lemma extract_stops_at_failure (texts : list string) (e : exn)
    (after : list page) (text_content : string) :
  extract_pages (map Ok texts ++ Raise e :: after) text_content = Raise e.
Proof.
  revert text_content. induction texts as [|t texts IH]; intros acc; simpl.
  - reflexivity.
  - destruct (PyStr.truthy t); apply IH.
Qed.

(** X4. One page whose text cannot be extracted fails the whole document:
    whatever the pages before it held and whatever follows, [load_pdf]
    raises the wrapped error of that page. *)
Theorem unreadable_page_fails_document (self : t) (stem : string)
    (texts : list string) (e : exn) (after : list page) :
  load_pdf self
    (single_file (stem +:+ ".pdf") (Ok (map Ok texts ++ Raise e :: after)))
    (stem +:+ ".pdf")
  = Raise (wrapped e).
Proof.
  unfold load_pdf, single_file.
  rewrite String.eqb_refl, StrFacts.tmp_path_is_pdf. cbn [negb].
  unfold load_pdf_body. rewrite extract_stops_at_failure.
  destruct texts; reflexivity.
Qed.

(** X5. The processing returns chunks exactly when the file opens with at
    least one page, every page gives its text, the text gathered has more
    than whitespace, and the splitter returns a non-empty list; the chunks
    are then the splitter's, untouched. *)
Theorem load_pdf_body_returns_iff (self : t) (file : pdf_file)
    (chunks : list string) :
  load_pdf_body self file = Ok chunks <->
  exists pages text,
    file = Ok pages /\
    pages <> [] /\
    extract_pages pages "" = Ok text /\
    PyStr.strip text <> "" /\
    split_text self text = Ok chunks /\
    chunks <> [].
Proof.
  unfold load_pdf_body. split.
  - destruct file as [pages|e]; [|discriminate].
    destruct pages as [|p pages]; [discriminate|].
    change (length (p :: pages) =? 0) with false. cbv iota.
    destruct (extract_pages (p :: pages) "") as [text|e] eqn:Hext; [|discriminate].
    destruct (PyStr.strip text) eqn:Hstrip; [discriminate|]. simpl.
    destruct (split_text self text) as [[|c cs]|e] eqn:Hsplit; try discriminate.
    intros H. injection H as <-.
    exists (p :: pages), text. rewrite Hstrip. repeat split; try discriminate; auto.
  - intros (pages & text & -> & Hne & Hext & Hstrip & Hsplit & Hchunks).
    destruct pages as [|p pages]; [congruence|].
    change (length (p :: pages) =? 0) with false. cbv iota.
    rewrite Hext. destruct (PyStr.strip text); [congruence|]. simpl.
    rewrite Hsplit. destruct chunks; [congruence | reflexivity].
Qed.

Lemma total_characters_app (a b : list string) :
  foldr (fun c n => String.length c + n) 0 (a ++ b) =
  foldr (fun c n => String.length c + n) 0 a +
  foldr (fun c n => String.length c + n) 0 b.
Proof. induction a as [|c a IH]; simpl; [reflexivity | rewrite IH; lia]. Qed.

(** X6. The statistics of chunks add up: the counts and the characters of two
    lists of chunks put together are the sums of theirs, the empty list
    counting for nothing; and there are no chunks exactly when the count
    is 0. *)
Theorem get_chunk_info_adds_up (a b : list string) :
  total_chunks (get_chunk_info (a ++ b)) =
    total_chunks (get_chunk_info a) + total_chunks (get_chunk_info b) /\
  total_characters (get_chunk_info (a ++ b)) =
    total_characters (get_chunk_info a) + total_characters (get_chunk_info b) /\
  (total_chunks (get_chunk_info a) = 0 <-> a = []).
Proof.
  assert (Hgen : forall l,
    total_chunks (get_chunk_info l) = length l /\
    total_characters (get_chunk_info l) =
      foldr (fun c n => String.length c + n) 0 l).
  { intros [|c l]; split; reflexivity. }
  destruct (Hgen (a ++ b)) as [-> ->].
  destruct (Hgen a) as [-> ->]. destruct (Hgen b) as [-> ->].
  split; [apply length_app|]. split; [apply total_characters_app|].
  split; [destruct a; [reflexivity | discriminate] | intros ->; reflexivity].
Qed.

End LoaderExtras.

(** ** Further properties of the pipeline object *)

Module PipelineExtras.
Import QAPipeline Condition Scenario Derived.

Lemma env_grows {B : Backend} (v : env B) (w : World B) (evs : list event) :
  Env w (trace v ++ evs) = v -> evs = [].
Proof.
  intros H. apply (f_equal trace) in H. simpl in H.
  apply (f_equal length) in H. rewrite length_app in H.
  destruct evs; [reflexivity | simpl in H; lia].
Qed.

Lemma or_str_given (x y : option string) :
  given (or_str x y) = if given x then true else given y.
Proof.
  destruct x as [s|]; simpl; [|reflexivity].
  destruct (PyStr.truthy s) eqn:E; simpl; [exact E | reflexivity].
Qed.

Lemma or_str_none (x : option string) :
  or_str x None = if given x then x else None.
Proof. destruct x as [s|]; simpl; [destruct (PyStr.truthy s)|]; reflexivity. Qed.

Section Generic.
Context {B : Backend}.

Lemma key_of (api_key : option string) (w : World B) :
  or_str (or_str api_key (getenv B "OPENROUTER_API_KEY" w)) None = None <->
  given api_key || given (getenv B "OPENROUTER_API_KEY" w) = false.
Proof.
  rewrite or_str_none, or_str_given.
  destruct (given api_key) eqn:Ha; simpl.
  - destruct api_key as [s|]; simpl in *; [|discriminate].
    rewrite Ha. split; discriminate.
  - destruct (given (getenv B "OPENROUTER_API_KEY" w)) eqn:Hg.
    + destruct api_key as [s|]; simpl in *.
      * rewrite Ha. destruct (getenv B _ w); [split; discriminate | discriminate].
      * destruct (getenv B _ w); [split; discriminate | discriminate].
    + tauto.
Qed.

(** X7. What [__init__] does, case by case: without a key it raises at once;
    with one it makes the embeddings, then the chat model, each once, and
    returns an object without store and chain; a failure of either stops
    it there and comes out as a [ValueError]. *)
Theorem init_outcomes (api_key llm_base_url llm_model : option string)
    (embedding_model : string) (v : env B) :
  exists r v' evs,
    init api_key llm_base_url llm_model embedding_model tt v = (r, tt, v') /\
    trace v' = trace v ++ evs /\
    match r with
    | Ok pipeline =>
        pipeline = {| vector_store := None; qa_chain := None |} /\
        evs = [Event (CallEmbeddings embedding_model) None;
               Event CallChatOpenAI None]
    | Raise e =>
        exn_type e = ValueError /\
        ((evs = [] /\ e = api_key_required /\
          given api_key || given (getenv B "OPENROUTER_API_KEY" (world v)) = false) \/
         (exists inner,
            evs = [Event (CallEmbeddings embedding_model) (Some inner)] /\
            exn_str e =
              "Failed to initialize embeddings: " +:+ exn_str inner +:+
              ". Please ensure sentence-transformers is installed.") \/
         (exists inner,
            evs = [Event (CallEmbeddings embedding_model) None;
                   Event CallChatOpenAI (Some inner)] /\
            exn_str e =
              "Failed to initialize LLM: " +:+ exn_str inner +:+
              ". Please check your OpenRouter API key and model configuration."))
    end.
Proof.
  destruct v as [w0 tr0]. unfold init. LifeCycle.step_monad.
  destruct (or_str (or_str api_key _) None) as [key|] eqn:Hkey.
  - simpl.
    destruct (HuggingFaceEmbeddings B embedding_model w0) as [[[]|e1] w1].
    + simpl.
      match goal with
      | |- context [ChatOpenAI B ?a ?k ?m ?w] =>
          destruct (ChatOpenAI B a k m w) as [[[]|e2] w2]
      end.
      * simpl. do 3 eexists. split; [reflexivity|].
        split; [rewrite <- app_assoc; reflexivity|]. split; reflexivity.
      * simpl. do 3 eexists. split; [reflexivity|].
        split; [rewrite <- app_assoc; reflexivity|]. split; [reflexivity|].
        right. right. eauto.
    + simpl. do 3 eexists. split; [reflexivity|].
      split; [reflexivity|]. split; [reflexivity|]. right. left. eauto.
  - exists (Raise api_key_required), (Env w0 tr0), []. split; [reflexivity|].
    split; [now rewrite app_nil_r|]. split; [reflexivity|]. left.
    apply key_of in Hkey. auto.
Qed.

(** With a key, [__init__] calls a service. *)
Lemma init_calls_with_key (api_key llm_base_url llm_model : option string)
    (embedding_model : string) (v : env B) (key : string) :
  or_str (or_str api_key (getenv B "OPENROUTER_API_KEY" (world v))) None = Some key ->
  length (trace v) <
  length (trace (init api_key llm_base_url llm_model embedding_model tt v).2).
Proof.
  destruct v as [w0 tr0]. unfold init. LifeCycle.step_monad. intros ->. simpl.
  destruct (HuggingFaceEmbeddings B embedding_model w0) as [[[]|e1] w1]; simpl.
  - match goal with
    | |- context [ChatOpenAI B ?a ?k ?m ?w] =>
        destruct (ChatOpenAI B a k m w) as [[[]|e2] w2]
    end; simpl; rewrite !length_app; simpl; lia.
  - rewrite length_app. simpl. lia.
Qed.

(** X8. [__init__] asks for an API key exactly when neither its argument nor
    the environment gives a non-empty one; it then raises before any
    service is called.  A key given as argument or in the environment is
    enough. *)
Theorem init_needs_api_key (api_key llm_base_url llm_model : option string)
    (embedding_model : string) (v : env B) :
  given api_key || given (getenv B "OPENROUTER_API_KEY" (world v)) = false <->
  init api_key llm_base_url llm_model embedding_model tt v
    = (Raise api_key_required, tt, v).
Proof.
  split.
  - intros Hkey. apply key_of in Hkey.
    unfold init. LifeCycle.step_monad. rewrite Hkey. destruct v; reflexivity.
  - intros Hrun.
    destruct (or_str (or_str api_key (getenv B "OPENROUTER_API_KEY" (world v))) None)
      as [key|] eqn:Hkey; [|now apply key_of].
    exfalso. pose proof (init_calls_with_key api_key llm_base_url llm_model
                           embedding_model v key Hkey) as Hlen.
    rewrite Hrun in Hlen. simpl in Hlen. lia.
Qed.

Lemma length_slice_to_le (n : nat) (text : string) :
  String.length (PyStr.slice_to n text) <= n.
Proof.
  revert text. induction n as [|n IH]; intros [|c text]; simpl; try lia.
  specialize (IH text). lia.
Qed.

(** X9. A set-up that raises raises a [ValueError], for one of three reasons:
    no chunks (nothing is called or changed), a failure while the vector
    store is made (the object is as before), or a failure while the chain
    is made; in this last case the object already points to the new store
    while it keeps the chain it had.  No set-up that fails touches the
    chain. *)
Theorem setup_failure_kinds (chunks : list string) (self self' : t)
    (v v' : env B) (e : exn) :
  setup_qa_pipeline chunks self v = (Raise e, self', v') ->
  exn_type e = ValueError /\
  qa_chain self' = qa_chain self /\
  ((chunks = [] /\ exn_str e = "No text chunks provided" /\
    self' = self /\ v' = v) \/
   (chunks <> [] /\ self' = self /\
    exists inner,
      exn_str e = "Failed to create vector store: " +:+ exn_str inner /\
      trace v' = trace v ++
        [Event (CallFromTexts chunks (name_in (world v))) (Some inner)]) \/
   (chunks <> [] /\ vector_store self' = Some (store_in (world v)) /\
    exists inner,
      exn_str e = "Failed to create QA chain: " +:+ exn_str inner /\
      trace v' = trace v ++
        [Event (CallFromTexts chunks (name_in (world v))) None;
         Event (CallFromChainType (chain_in (world v))) (Some inner)])).
Proof.
  unfold setup_qa_pipeline, chain_in, store_in, name_in.
  destruct chunks as [|c chunks].
  - LifeCycle.step_monad. intros H. injection H as <- <- <-.
    split; [reflexivity|]. split; [reflexivity|]. left. auto.
  - destruct self as [store0 chain0]. destruct v as [w0 tr0].
    LifeCycle.step_monad.
    destruct (uuid4_hex B w0) as [hex w1]. simpl.
    destruct (Chroma_from_texts B _ _ w1) as [[[]|e1] w2]; simpl.
    + destruct (RetrievalQA_from_chain_type B _ w2) as [[[]|e2] w3]; simpl.
      * discriminate.
      * intros H. injection H as <- <- <-.
        split; [reflexivity|]. split; [reflexivity|]. right. right.
        split; [discriminate|]. split; [reflexivity|].
        exists e2. split; [reflexivity|]. simpl.
        rewrite <- app_assoc. reflexivity.
    + intros H. injection H as <- <- <-.
      split; [reflexivity|]. split; [reflexivity|]. right. left.
      split; [discriminate|]. split; [reflexivity|].
      exists e1. split; reflexivity.
Qed.

Lemma name_in_shape (w : World B) :
  String.prefix "pdf_qa_collection_" (name_in w) = true /\
  String.length (name_in w) <= 26.
Proof.
  unfold name_in. split; [apply StrFacts.prefix_app|].
  rewrite StrFacts.length_app.
  pose proof (length_slice_to_le 8 (uuid4_hex B w).1).
  change (String.length "pdf_qa_collection_") with 18. lia.
Qed.

(** X10. A set-up that returns has embedded all the chunks it was given, in
    their order and in one call, into a collection named
    "pdf_qa_collection_" and at most 8 more characters, and then made one
    chain on that collection with k = 3 and the prompt of the module; the
    object holds that store and that chain, and the chain is what is
    returned.  Whatever store and chain the object had are replaced, and
    nothing is deleted. *)
Theorem setup_success_shape (chunks : list string) (self self' : t)
    (v v' : env B) (made : option RetrievalQA) :
  setup_qa_pipeline chunks self v = (Ok made, self', v') ->
  chunks <> [] /\
  made = Some (chain_in (world v)) /\
  self' = {| vector_store := Some (store_in (world v));
             qa_chain := Some (chain_in (world v)) |} /\
  trace v' = trace v ++
    [Event (CallFromTexts chunks (name_in (world v))) None;
     Event (CallFromChainType (chain_in (world v))) None] /\
  String.prefix "pdf_qa_collection_" (name_in (world v)) = true /\
  String.length (name_in (world v)) <= 26.
Proof.
  intros H.
  assert (Hmain :
    chunks <> [] /\
    made = Some (chain_in (world v)) /\
    self' = {| vector_store := Some (store_in (world v));
               qa_chain := Some (chain_in (world v)) |} /\
    trace v' = trace v ++
      [Event (CallFromTexts chunks (name_in (world v))) None;
       Event (CallFromChainType (chain_in (world v))) None]).
  { revert H. unfold setup_qa_pipeline, chain_in, store_in, name_in.
    destruct chunks as [|c chunks]; [discriminate|].
    destruct self as [store0 chain0]. destruct v as [w0 tr0].
    LifeCycle.step_monad.
    destruct (uuid4_hex B w0) as [hex w1]. simpl.
    destruct (Chroma_from_texts B _ _ w1) as [[[]|e1] w2]; simpl; [|discriminate].
    destruct (RetrievalQA_from_chain_type B _ w2) as [[[]|e2] w3]; simpl;
      [|discriminate].
    intros H. injection H as <- <- <-.
    split; [discriminate|]. split; [reflexivity|]. split; [reflexivity|].
    simpl. rewrite <- app_assoc. reflexivity. }
  destruct Hmain as (H1 & H2 & H3 & H4).
  destruct (name_in_shape (world v)) as [Hp Hl].
  repeat split; assumption.
Qed.

(** X11. [get_vector_store_info] never changes the object.  Without a store
    it calls nothing and reports 0 documents.  With one it first reads the
    count of the collection for the truth test of line 180, outside the
    [try]: when that call raises, the method raises the same error; when it
    gives 0, the method reports 0 documents and no name.  Otherwise it
    reads the count a second time, inside the [try], and reports it with
    the name of the collection, or 0 documents and no name when this second
    call raises.  It calls nothing else. *)
Theorem info_outcomes (self : t) (v : env B) :
  exists r v' evs,
    get_vector_store_info self v = (r, self, v') /\
    trace v' = trace v ++ evs /\
    match vector_store self with
    | None => r = Ok no_result /\ v' = v
    | Some store =>
        let first := collection_count B store (world v) in
        match first.1 with
        | Raise e =>
            r = Raise e /\ world v' = first.2 /\
            evs = [Event (CallCount store) (Some e)]
        | Ok 0 =>
            r = Ok no_result /\ world v' = first.2 /\
            evs = [Event (CallCount store) None]
        | Ok (S _) =>
            let second := collection_count B store first.2 in
            r = Ok match second.1 with
                   | Ok m => {| total_documents := m;
                                info_collection_name := Some (collection_name store) |}
                   | Raise _ => no_result
                   end /\
            world v' = second.2 /\
            evs = [Event (CallCount store) None;
                   Event (CallCount store) (raised second.1)]
        end
    end.
Proof.
  pose proof (LifeCycle.info_cases self v) as H.
  destruct (vector_store self) as [store|].
  - cbv zeta.
    destruct (collection_count B store (world v)) as [[n|e] w1]; cbn [fst snd].
    + destruct n as [|n]; cbn [Nat.eqb] in H.
      * do 3 eexists. split; [exact H|]. cbn [trace world]. auto.
      * destruct (collection_count B store w1) as [[m|e] w2]; cbn [fst snd];
          do 3 eexists; (split; [exact H|]); cbn [trace world raised];
          rewrite <- app_assoc; auto.
    + do 3 eexists. split; [exact H|]. cbn [trace world]. auto.
  - exists (Ok no_result), v, []. split; [exact H|].
    split; [now rewrite app_nil_r | auto].
Qed.

(** X12. [clear_vector_store] without a store calls and changes nothing.
    With one it first reads the count of the collection for the truth test
    of line 197, outside the [try]: when that call raises, the method
    raises the same error and the object is as it was; when it gives 0,
    the method returns and the object is as it was.  Otherwise it asks
    once for the deletion of the collection, and returns: store and chain
    are dropped together when the deletion returns, none of them when it
    raises.  Once the store is gone, clearing again does nothing at
    all. *)
Theorem clear_outcomes (self : t) (v : env B) :
  exists r self' v' evs,
    clear_vector_store self v = (r, self', v') /\
    trace v' = trace v ++ evs /\
    match vector_store self with
    | None => r = Ok tt /\ self' = self /\ v' = v
    | Some store =>
        let first := collection_count B store (world v) in
        match first.1 with
        | Raise e =>
            r = Raise e /\ self' = self /\ world v' = first.2 /\
            evs = [Event (CallCount store) (Some e)]
        | Ok 0 =>
            r = Ok tt /\ self' = self /\ world v' = first.2 /\
            evs = [Event (CallCount store) None]
        | Ok (S _) =>
            let deletion := delete_collection B (collection_name store) first.2 in
            r = Ok tt /\
            self' = match deletion.1 with
                    | Ok _ => {| vector_store := None; qa_chain := None |}
                    | Raise _ => self
                    end /\
            world v' = deletion.2 /\
            evs = [Event (CallCount store) None;
                   Event (CallDelete (collection_name store)) (raised deletion.1)]
        end
    end /\
    (vector_store self' = None ->
     clear_vector_store self' v' = (Ok tt, self', v')).
Proof.
  assert (Hnone : forall (s : t) (u : env B),
            vector_store s = None -> clear_vector_store s u = (Ok tt, s, u)).
  { intros s u Hs. pose proof (LifeCycle.clear_cases s u) as H.
    rewrite Hs in H. exact H. }
  pose proof (LifeCycle.clear_cases self v) as H.
  destruct (vector_store self) as [store|] eqn:Hstore.
  - cbv zeta.
    destruct (collection_count B store (world v)) as [[n|e] w1]; cbn [fst snd].
    + destruct n as [|n]; cbn [Nat.eqb] in H.
      * do 4 eexists. split; [exact H|]. cbn [trace world].
        split; [reflexivity|]. split; [auto|]. apply Hnone.
      * destruct (delete_collection B (collection_name store) w1)
          as [[[]|e] w2]; cbn [fst snd];
          do 4 eexists; (split; [exact H|]); cbn [trace world raised];
          rewrite <- app_assoc; (split; [reflexivity|]);
          (split; [auto|]); apply Hnone.
    + do 4 eexists. split; [exact H|]. cbn [trace world].
      split; [reflexivity|]. split; [auto|]. apply Hnone.
  - exists (Ok tt), self, v, []. split; [exact H|].
    split; [now rewrite app_nil_r|]. split; [auto|]. intros _. exact H.
Qed.

(** X13. [query_chain] never changes the object.  It raises only two errors,
    the not-initialised one and the empty-question one, both before
    anything is called; otherwise it calls the chain exactly once, with the
    question as it was given, not trimmed, and returns a result. *)
Theorem query_chain_outcomes (question : string) (self : t) (v : env B) :
  exists r v',
    query_chain question self v = (r, self, v') /\
    match r with
    | Raise e =>
        v' = v /\
        ((qa_chain self = None /\ e = PipelineNotInitialized) \/
         (is_Some (qa_chain self) /\ PyStr.strip question = "" /\
          e = EmptyQuestion))
    | Ok res =>
        exists chain,
          qa_chain self = Some chain /\
          PyStr.strip question <> "" /\
          trace v' = trace v ++
            [Event (CallChain chain question)
               (raised (chain_call B chain question (world v)).1)] /\
          res = packaged (chain_call B chain question (world v)).1
    end.
Proof.
  destruct (qa_chain self) as [chain|] eqn:Hc.
  - destruct (decide (PyStr.strip question = "")) as [Hq|Hq].
    + rewrite (QueryFacts.query_chain_blank _ _ _ _ Hc Hq).
      do 2 eexists. split; [reflexivity|]. split; [reflexivity|].
      right. split; [eauto | auto].
    + rewrite (QueryFacts.query_chain_asks _ _ _ _ Hc Hq).
      do 2 eexists. split; [reflexivity|]. exists chain. auto.
  - rewrite (QueryFacts.query_chain_uninitialized _ _ _ Hc).
    do 2 eexists. split; [reflexivity|]. split; [reflexivity|]. left. auto.
Qed.

End Generic.

Lemma slice_to_app (a b : string) :
  PyStr.slice_to (String.length a) (a +:+ b) = a.
Proof.
  induction a as [|c a IH]; [destruct b; reflexivity|].
  rewrite StrFacts.app_cons. simpl. now rewrite IH.
Qed.

Lemma slice_to_all (n : nat) (text : string) :
  String.length text <= n -> PyStr.slice_to n text = text.
Proof.
  revert text. induction n as [|n IH]; intros [|c text] H; simpl in *;
    try reflexivity; [lia|]. rewrite IH; [reflexivity | lia].
Qed.

Lemma length_truncate_long (text : string) :
  200 < String.length text -> String.length (truncate text) = 203.
Proof.
  intros H. rewrite (SourceFacts.truncate_long text H), StrFacts.length_app.
  rewrite StrFacts.length_slice_to by lia. reflexivity.
Qed.

Lemma length_truncate_le (text : string) :
  String.length (truncate text) <= 203.
Proof.
  destruct (le_lt_dec (String.length text) 200) as [Hshort|Hlong].
  - rewrite (SourceFacts.truncate_short text Hshort). lia.
  - rewrite (length_truncate_long text Hlong). lia.
Qed.

(** X14. What is shown for a source is never longer than 203 characters and
    starts like the text, up to 200 characters; showing it again changes
    nothing.  A text of 201 or 202 characters is the only one that comes
    out longer than it went in. *)
Theorem truncate_facts (text : string) :
  String.length (truncate text) <= 203 /\
  truncate (truncate text) = truncate text /\
  PyStr.slice_to 200 (truncate text) = PyStr.slice_to 200 text /\
  (String.length text < String.length (truncate text) <->
   String.length text = 201 \/ String.length text = 202).
Proof.
  destruct (le_lt_dec (String.length text) 200) as [Hshort|Hlong].
  - rewrite (SourceFacts.truncate_short text Hshort).
    rewrite (SourceFacts.truncate_short text Hshort).
    repeat split; try reflexivity; lia.
  - pose proof (length_truncate_long text Hlong) as Hlen.
    assert (H200 : String.length (PyStr.slice_to 200 text) = 200)
      by (apply StrFacts.length_slice_to; lia).
    assert (Hslice : PyStr.slice_to 200 (truncate text) = PyStr.slice_to 200 text).
    { rewrite (SourceFacts.truncate_long text Hlong).
      rewrite <- H200 at 1. apply slice_to_app. }
    split; [lia|]. split; [|split; [exact Hslice|]].
    + rewrite (SourceFacts.truncate_long (truncate text)) by lia.
      rewrite Hslice. symmetry. now apply SourceFacts.truncate_long.
    + rewrite Hlen. lia.
Qed.

Section Results.
Context {B : Backend}.

Lemma sources_bounded (docs : list document) :
  Forall (fun s => String.length s <= 203) (format_sources docs).
Proof.
  rewrite SourceFacts.format_sources_texts_of.
  apply Forall_fmap, Forall_true. intros text. simpl.
  apply length_truncate_le.
Qed.

(** X15. Every result [query_chain] returns is well formed: its source count
    is the number of its sources, there are no more sources than documents
    the chain handed back, and no source is longer than 203 characters. *)
Theorem query_result_invariants (question : string) (self self' : t)
    (v v' : env B) (res : QueryResult) :
  query_chain question self v = (Ok res, self', v') ->
  source_count res = length (sources res) /\
  Forall (fun s => String.length s <= 203) (sources res) /\
  (forall chain, qa_chain self = Some chain ->
     length (sources res) <=
     length (returned_documents (chain_call B chain question (world v)).1)).
Proof.
  intros Hrun.
  destruct (qa_chain self) as [chain|] eqn:Hc;
    [|rewrite (QueryFacts.query_chain_uninitialized _ _ _ Hc) in Hrun;
      discriminate].
  destruct (decide (PyStr.strip question = "")) as [Hq|Hq];
    [rewrite (QueryFacts.query_chain_blank _ _ _ _ Hc Hq) in Hrun; discriminate|].
  rewrite (QueryFacts.query_chain_asks _ _ _ _ Hc Hq) in Hrun.
  injection Hrun as <- _ _.
  unfold packaged, returned_documents.
  destruct (chain_call B chain question (world v)).1 as [out|e] eqn:E; simpl.
  - split; [reflexivity|]. split; [apply sources_bounded|].
    intros chain' Hc'. injection Hc' as <-.
    rewrite E. apply SourceFacts.length_format_sources.
  - split; [reflexivity|]. split; [constructor|]. intros; simpl; lia.
Qed.

(** X16. [ask_question] of main.py never raises and never changes the
    pipeline: the two errors of [query_chain] come back as results of the
    same form as a failed answer, without a call; in every other case the
    result is the one of [query_chain]. *)
Theorem ask_question_outcomes (question : string) (self : t) (v : env B) :
  exists res v',
    Main.ask_question question self v = (Ok res, self, v') /\
    (qa_chain self = None ->
     res = error_result PipelineNotInitialized /\ v' = v) /\
    (is_Some (qa_chain self) -> PyStr.strip question = "" ->
     res = error_result EmptyQuestion /\ v' = v) /\
    (is_Some (qa_chain self) -> PyStr.strip question <> "" ->
     query_chain question self v = (Ok res, self, v')).
Proof.
  unfold Main.ask_question, try_except.
  destruct (qa_chain self) as [chain|] eqn:Hc.
  - destruct (decide (PyStr.strip question = "")) as [Hq|Hq].
    + rewrite (QueryFacts.query_chain_blank _ _ _ _ Hc Hq).
      exists (error_result EmptyQuestion), v. split; [reflexivity|].
      split; [discriminate|]. split; [auto|]. intros _ Hne. congruence.
    + rewrite (QueryFacts.query_chain_asks _ _ _ _ Hc Hq).
      do 2 eexists. split; [reflexivity|].
      split; [discriminate|]. split; [congruence|]. reflexivity.
  - rewrite (QueryFacts.query_chain_uninitialized _ _ _ Hc).
    exists (error_result PipelineNotInitialized), v. split; [reflexivity|].
    split; [auto|]. split; intros [c Hc']; discriminate.
Qed.

Lemma setup_returns_object (chunks : list string) (self self' : t)
    (v v' : env B) (made : option RetrievalQA) :
  setup_qa_pipeline chunks self v = (Ok made, self', v') ->
  made = Some (chain_in (world v)) /\ qa_chain self' = Some (chain_in (world v)).
Proof.
  unfold setup_qa_pipeline, chain_in, store_in, name_in.
  destruct chunks as [|c chunks]; [discriminate|].
  destruct self as [store0 chain0]. destruct v as [w0 tr0].
  LifeCycle.step_monad.
  destruct (uuid4_hex B w0) as [hex w1]. simpl.
  destruct (Chroma_from_texts B _ _ w1) as [[[]|e1] w2]; simpl; [|discriminate].
  destruct (RetrievalQA_from_chain_type B _ w2) as [[[]|e2] w3]; simpl;
    [|discriminate].
  intros H. injection H as <- <- _. split; reflexivity.
Qed.


(** X18. When the count of the collection is not zero and the deletion of
    the collection then returns, clearing leaves a pipeline that is not
    set up: every question then fails with the not-initialised error and
    the store information is 0 documents, both without a call; clearing
    again does nothing. *)
Theorem clear_then_query (self : t) (v : env B) (store : Chroma) (n : nat)
    (w1 w' : World B) (question : string) :
  vector_store self = Some store ->
  collection_count B store (world v) = (Ok n, w1) ->
  n <> 0 ->
  delete_collection B (collection_name store) w1 = (Ok tt, w') ->
  exists self' v',
    clear_vector_store self v = (Ok tt, self', v') /\
    world v' = w' /\
    query_chain question self' v' = (Raise PipelineNotInitialized, self', v') /\
    get_vector_store_info self' v' = (Ok no_result, self', v') /\
    clear_vector_store self' v' = (Ok tt, self', v').
Proof.
  intros Hs Hc Hn Hd.
  rewrite (LifeCycle.clear_after_deletion _ _ _ _ _ _ Hs Hc Hn Hd).
  do 2 eexists. split; [reflexivity|]. repeat split.
Qed.

End Results.

End PipelineExtras.

(** ** Further properties of the calls of main.py *)

Module AppExtras.
Import QAPipeline Condition Scenario Derived.

Section Generic.
Context {B : Backend}.

Lemma init_trace (api_key llm_base_url llm_model : option string)
    (embedding_model : string) (v : env B) :
  exists r v' evs,
    init api_key llm_base_url llm_model embedding_model tt v = (r, tt, v') /\
    trace v' = trace v ++ evs /\
    existsb is_delete evs = false.
Proof.
  destruct v as [w0 tr0]. unfold init. LifeCycle.step_monad.
  destruct (or_str (or_str api_key _) None) as [key|].
  - simpl.
    destruct (HuggingFaceEmbeddings B embedding_model w0) as [[[]|e1] w1]; simpl.
    + match goal with
      | |- context [ChatOpenAI B ?a ?k ?m ?w] =>
          destruct (ChatOpenAI B a k m w) as [[[]|e2] w2]
      end; simpl; do 3 eexists; (split; [reflexivity|]);
        (split; [rewrite <- app_assoc; reflexivity | reflexivity]).
    + do 3 eexists. split; [reflexivity|]. split; reflexivity.
  - exists (Raise api_key_required), (Env w0 tr0), [].
    split; [reflexivity|]. split; [now rewrite app_nil_r | reflexivity].
Qed.

Lemma setup_trace (chunks : list string) (self : t) (v : env B) :
  exists r self' v' evs,
    setup_qa_pipeline chunks self v = (r, self', v') /\
    trace v' = trace v ++ evs /\
    existsb is_delete evs = false /\
    (is_ok r = true ->
     is_Some (vector_store self') /\ is_Some (qa_chain self')).
Proof.
  unfold setup_qa_pipeline. destruct chunks as [|c chunks].
  - exists (Raise (Exn ValueError "No text chunks provided")), self, v, [].
    split; [reflexivity|]. split; [now rewrite app_nil_r|].
    split; [reflexivity | discriminate].
  - destruct self as [store0 chain0]. destruct v as [w0 tr0].
    LifeCycle.step_monad.
    destruct (uuid4_hex B w0) as [hex w1]. simpl.
    destruct (Chroma_from_texts B _ _ w1) as [[[]|e1] w2]; simpl.
    + destruct (RetrievalQA_from_chain_type B _ w2) as [[[]|e2] w3]; simpl;
        do 4 eexists; (split; [reflexivity|]);
        (split; [rewrite <- app_assoc; reflexivity|]);
        (split; [reflexivity|]); [eauto | discriminate].
    + do 4 eexists. split; [reflexivity|]. split; [reflexivity|].
      split; [reflexivity | discriminate].
Qed.

(** [get_vector_store_info] asks for no deletion; when it raises, the
    object holds a store whose count has just raised that error. *)
Lemma info_trace (self : t) (v : env B) :
  exists r v' evs,
    get_vector_store_info self v = (r, self, v') /\
    trace v' = trace v ++ evs /\
    existsb is_delete evs = false /\
    match r with
    | Ok _ => True
    | Raise e =>
        exists store,
          vector_store self = Some store /\
          evs = [Event (CallCount store) (Some e)]
    end.
Proof.
  pose proof (LifeCycle.info_cases self v) as H.
  destruct (vector_store self) as [store|].
  - destruct (collection_count B store (world v)) as [[n|e] w1].
    + destruct (n =? 0).
      * do 3 eexists. split; [exact H|]. cbn [trace]. auto.
      * destruct (collection_count B store w1) as [[m|e] w2];
          do 3 eexists; (split; [exact H|]); cbn [trace];
          rewrite <- app_assoc; auto.
    + do 3 eexists. split; [exact H|]. cbn [trace].
      split; [reflexivity|]. split; [reflexivity|]. eauto.
  - exists (Ok no_result), v, []. split; [exact H|].
    split; [now rewrite app_nil_r | auto].
Qed.

Lemma existsb_delete_app (l1 l2 : list event) :
  existsb is_delete l1 = false -> existsb is_delete l2 = false ->
  existsb is_delete (l1 ++ l2) = false.
Proof. intros H1 H2. rewrite existsb_app, H1, H2. reflexivity. Qed.

Variable RecursiveCharacterTextSplitter :
  nat -> nat -> list string -> string -> result (list string).
Variable tmp_name : string.

Abbreviation loaded uploaded :=
  (PDFLoader.load_pdf
     (PDFLoader.init RecursiveCharacterTextSplitter 500 50)
     (single_file (tmp_name +:+ ".pdf") (Main.getvalue uploaded))
     (tmp_name +:+ ".pdf")).

(** The session [ingest] writes at lines 174-177, before it asks for the
    statistics of the store. *)
Abbreviation written uploaded chunks pipeline :=
  {| Main.qa_pipeline := Some pipeline;
     Main.pdf_loaded := true;
     Main.chunks := chunks;
     Main.current_pdf_name := Main.name uploaded |}.

(** The steps of [ingest], with what each leaves behind.  A failure
    before the session is written leaves the session as it was; the only
    failure after it is the count of the truth test of
    [get_vector_store_info]. *)
Lemma ingest_cases (uploaded : Main.uploaded_file) (sess : Main.session)
    (v : env B) :
  exists r sess' v' evs,
    Main.ingest RecursiveCharacterTextSplitter tmp_name uploaded sess v
      = (r, sess', v') /\
    trace v' = trace v ++ evs /\
    existsb is_delete evs = false /\
    match r with
    | Raise e =>
        sess' = sess \/
        exists chunks pipeline store before,
          loaded uploaded = Ok chunks /\
          sess' = written uploaded chunks pipeline /\
          vector_store pipeline = Some store /\
          is_Some (qa_chain pipeline) /\
          evs = before ++ [Event (CallCount store) (Some e)]
    | Ok infos =>
        exists chunks pipeline,
          loaded uploaded = Ok chunks /\
          sess' = written uploaded chunks pipeline /\
          is_Some (vector_store pipeline) /\
          is_Some (qa_chain pipeline) /\
          infos.1 = PDFLoader.get_chunk_info chunks
    end.
Proof.
  unfold Main.ingest. unfold bind at 1, lift_result.
  change (fun p : string =>
            if String.eqb p (tmp_name +:+ ".pdf")
            then Some (Main.getvalue uploaded) else None)
    with (single_file (tmp_name +:+ ".pdf") (Main.getvalue uploaded)).
  destruct (loaded uploaded) as [chunks|e] eqn:Hload.
  2:{ exists (Raise e), sess, v, []. split; [reflexivity|].
      split; [now rewrite app_nil_r|]. split; [reflexivity | now left]. }
  unfold bind at 1, on_object at 1.
  destruct (init_trace None None None "sentence-transformers/all-MiniLM-L6-v2" v)
    as (r1 & v1 & evs1 & -> & Ht1 & Hd1).
  destruct r1 as [pipeline0|e1].
  2:{ exists (Raise e1), sess, v1, evs1. repeat split; try assumption.
      now left. }
  cbn [fst]. unfold bind at 1, on_object at 1.
  destruct (setup_trace chunks pipeline0 v1)
    as (r2 & pipeline & v2 & evs2 & -> & Ht2 & Hd2 & Hready).
  destruct r2 as [made|e2].
  2:{ exists (Raise e2), sess, v2, (evs1 ++ evs2). split; [reflexivity|].
      split; [rewrite Ht2, Ht1, app_assoc; reflexivity|].
      split; [now apply existsb_delete_app | now left]. }
  cbn [snd]. unfold bind at 1, put. unfold bind at 1, on_object at 1.
  destruct (info_trace pipeline v2) as (r3 & v3 & evs3 & -> & Ht3 & Hd3 & Hr3).
  destruct (Hready eq_refl) as [Hs Hc].
  destruct r3 as [info|e3]; unfold ret.
  - do 4 eexists. split; [reflexivity|].
    split; [rewrite Ht3, Ht2, Ht1, <- !app_assoc; reflexivity|].
    split; [now repeat apply existsb_delete_app|].
    exists chunks, pipeline. repeat split; assumption.
  - do 4 eexists. split; [reflexivity|].
    split; [rewrite Ht3, Ht2, Ht1, <- !app_assoc; reflexivity|].
    split; [now repeat apply existsb_delete_app|].
    right. destruct Hr3 as (store & Hstore & ->).
    exists chunks, pipeline, store, (evs1 ++ evs2).
    split; [reflexivity|]. split; [reflexivity|]. split; [exact Hstore|].
    split; [exact Hc|]. now rewrite <- app_assoc.
Qed.

(** X19. [process_pdf] never raises.  A file above 50 MiB is refused before
    anything is read or called, and the session is as it was.  When no
    result is reported the session is as it was, but for one case: the
    set-up returned, the session was written, and the count that
    [get_vector_store_info] reads for its truth test then raised, last of
    the calls; the session then holds the new pipeline, the chunks, the
    name of the file and the loaded flag. *)
Theorem process_pdf_never_raises (uploaded : Main.uploaded_file)
    (sess : Main.session) (v : env B) :
  exists r sess' v' evs,
    Main.process_pdf RecursiveCharacterTextSplitter tmp_name uploaded sess v
      = (Ok r, sess', v') /\
    trace v' = trace v ++ evs /\
    ((50 * 1024 * 1024 < Main.size uploaded)%N ->
     r = None /\ sess' = sess /\ v' = v) /\
    (r = None ->
     sess' = sess \/
     exists chunks pipeline store before e,
       loaded uploaded = Ok chunks /\
       sess' = written uploaded chunks pipeline /\
       vector_store pipeline = Some store /\
       is_Some (qa_chain pipeline) /\
       evs = before ++ [Event (CallCount store) (Some e)]).
Proof.
  unfold Main.process_pdf, try_except, Main.process_pdf_body.
  destruct (_ <? _)%N eqn:Hsize.
  - exists None, sess, v, []. split; [reflexivity|].
    split; [now rewrite app_nil_r | auto].
  - unfold bind at 1.
    destruct (ingest_cases uploaded sess v)
      as (r & sess' & v' & evs & -> & Ht & _ & Hcase).
    apply N.ltb_ge in Hsize.
    destruct r as [infos|e]; unfold ret.
    + exists (Some infos), sess', v', evs. split; [reflexivity|].
      split; [exact Ht|]. split; [lia | discriminate].
    + exists None, sess', v', evs. split; [reflexivity|].
      split; [exact Ht|]. split; [lia|]. intros _.
      destruct Hcase as [Hsame | (chunks & pipeline & store & before & Hrest)];
        [now left | right].
      exists chunks, pipeline, store, before, e. exact Hrest.
Qed.

(** X20. When [process_pdf] reports a result, the file was at most 50 MiB and
    [load_pdf] returned chunks for it; the session holds exactly these
    chunks, the name of the file, the loaded flag and a new pipeline with
    its store and its chain set; the chunk statistics are those of the
    chunks. *)
Theorem process_pdf_success (uploaded : Main.uploaded_file)
    (sess sess' : Main.session) (v v' : env B)
    (infos : PDFLoader.chunk_info * store_info) :
  Main.process_pdf RecursiveCharacterTextSplitter tmp_name uploaded sess v
    = (Ok (Some infos), sess', v') ->
  (Main.size uploaded <= 50 * 1024 * 1024)%N /\
  exists chunks pipeline,
    loaded uploaded = Ok chunks /\
    chunks <> [] /\
    sess' = {| Main.qa_pipeline := Some pipeline;
               Main.pdf_loaded := true;
               Main.chunks := chunks;
               Main.current_pdf_name := Main.name uploaded |} /\
    is_Some (vector_store pipeline) /\
    is_Some (qa_chain pipeline) /\
    infos.1 = PDFLoader.get_chunk_info chunks /\
    PDFLoader.total_chunks infos.1 = length chunks.
Proof.
  unfold Main.process_pdf, try_except, Main.process_pdf_body.
  destruct (_ <? _)%N eqn:Hsize; [discriminate|].
  apply N.ltb_ge in Hsize. unfold bind at 1.
  destruct (ingest_cases uploaded sess v)
    as (r & sess1 & v1 & evs & -> & _ & _ & Hcase).
  destruct r as [infos1|e]; unfold ret; [|discriminate].
  intros H. injection H as <- <- <-. split; [exact Hsize|].
  destruct Hcase as (chunks & pipeline & Hload & Hsess & Hs & Hc & Hinfo).
  exists chunks, pipeline.
  pose proof (LoaderFacts.load_pdf_returns_chunks _ _ _ _ Hload) as Hne.
  repeat split; try assumption.
  rewrite Hinfo. destruct chunks; [congruence | reflexivity].
Qed.

(** X21. Processing a document never asks for the deletion of a collection,
    neither of the one the session held before nor of the one it made
    when it fails after making it. *)
Theorem process_pdf_never_deletes (uploaded : Main.uploaded_file)
    (sess : Main.session) (v : env B) :
  exists evs,
    trace (Main.process_pdf RecursiveCharacterTextSplitter tmp_name
             uploaded sess v).2 = trace v ++ evs /\
    existsb is_delete evs = false.
Proof.
  unfold Main.process_pdf, try_except, Main.process_pdf_body.
  destruct (_ <? _)%N.
  - exists []. split; [simpl; now rewrite app_nil_r | reflexivity].
  - unfold bind at 1.
    destruct (ingest_cases uploaded sess v)
      as (r & sess' & v' & evs & -> & Ht & Hd & _).
    exists evs. destruct r; unfold ret; simpl; auto.
Qed.

(** X22. The check of the key in main.py and the constructor of the pipeline
    agree: the check says no exactly when a pipeline made without an
    explicit key, as [process_pdf] makes it, raises for the missing key;
    the check itself changes nothing. *)
Theorem key_check_agrees_with_init (sess : Main.session)
    (llm_base_url llm_model : option string) (embedding_model : string)
    (v : env B) :
  exists found,
    Main.check_openrouter_key sess v = (Ok found, sess, Env (world v) (trace v)) /\
    (found = false <->
     init None llm_base_url llm_model embedding_model tt v
       = (Raise api_key_required, tt, v)).
Proof.
  exists (given (getenv B "OPENROUTER_API_KEY" (world v))). split.
  - unfold Main.check_openrouter_key. LifeCycle.step_monad.
    destruct (getenv B "OPENROUTER_API_KEY" (world v)); reflexivity.
  - pose proof (PipelineExtras.key_of None (world v)) as Hkey.
    cbn [given orb] in Hkey. rewrite <- Hkey. split.
    + intros Hnone. unfold init. LifeCycle.step_monad.
      change (or_str None (getenv B "OPENROUTER_API_KEY" (world v)))
        with (getenv B "OPENROUTER_API_KEY" (world v)) in Hnone.
      rewrite Hnone. destruct v; reflexivity.
    + intros Hrun.
      destruct (or_str (or_str None (getenv B "OPENROUTER_API_KEY" (world v))) None)
        as [key|] eqn:Hk; [|reflexivity].
      exfalso.
      pose proof (PipelineExtras.init_calls_with_key None llm_base_url
                    llm_model embedding_model v key Hk) as Hlen.
      rewrite Hrun in Hlen. simpl in Hlen. lia.
Qed.

(** X23. The Clear button has no handler around [clear_vector_store].
    Without a pipeline in the session, or without a store in the pipeline,
    it calls nothing and leaves the initial session.  With a store it
    first reads the count of the collection: when that call raises, the
    button raises the same error and the session keeps its keys; when it
    gives 0, the session becomes the initial one and no deletion is asked
    for; otherwise one deletion is asked for, and the session becomes the
    initial one whether or not the deletion succeeded. *)
Theorem clear_button_outcomes (sess : Main.session) (v : env B) :
  exists r sess' v' evs,
    Main.clear_button sess v = (r, sess', v') /\
    trace v' = trace v ++ evs /\
    match session_store sess with
    | None =>
        r = Ok tt /\ sess' = Main.initialize_session_state /\ v' = v
    | Some store =>
        let first := collection_count B store (world v) in
        match first.1 with
        | Raise e =>
            r = Raise e /\ sess' = sess /\ world v' = first.2 /\
            evs = [Event (CallCount store) (Some e)]
        | Ok 0 =>
            r = Ok tt /\ sess' = Main.initialize_session_state /\
            world v' = first.2 /\
            evs = [Event (CallCount store) None]
        | Ok (S _) =>
            let deletion := delete_collection B (collection_name store) first.2 in
            r = Ok tt /\ sess' = Main.initialize_session_state /\
            world v' = deletion.2 /\
            evs = [Event (CallCount store) None;
                   Event (CallDelete (collection_name store)) (raised deletion.1)]
        end
    end.
Proof.
  pose proof (LifeCycle.clear_button_cases sess v) as Hb.
  unfold session_store.
  destruct (Main.qa_pipeline sess) as [pipeline|].
  2:{ exists (Ok tt), Main.initialize_session_state, v, [].
      split; [exact Hb|]. split; [now rewrite app_nil_r | auto]. }
  pose proof (LifeCycle.clear_cases pipeline v) as H.
  destruct (vector_store pipeline) as [store|].
  - cbv zeta.
    destruct (collection_count B store (world v)) as [[n|e] w1]; cbn [fst snd].
    + destruct n as [|n]; cbn [Nat.eqb] in H.
      * rewrite H in Hb. do 4 eexists. split; [exact Hb|]. cbn [trace world].
        auto.
      * destruct (delete_collection B (collection_name store) w1)
          as [[[]|e] w2]; cbn [fst snd]; rewrite H in Hb;
          do 4 eexists; (split; [exact Hb|]); cbn [trace world raised];
          rewrite <- app_assoc; auto.
    + rewrite H in Hb. do 4 eexists. split; [exact Hb|]. cbn [trace world].
      auto.
  - rewrite H in Hb. exists (Ok tt), Main.initialize_session_state, v, [].
    split; [exact Hb|]. split; [now rewrite app_nil_r | auto].
Qed.

End Generic.

End AppExtras.

(** ** The further properties at concrete inputs *)

Module ExtraChecks.
Import QAPipeline SpecBackend Scenario Condition Derived Examples MoreExamples.

Lemma load_pdf_ignores_case_witness :
  PDFLoader.load_pdf loader disk ("Report" +:+ ".PDF")
    = Raise (wrapped broken_reader).
Proof.
  apply (LoaderExtras.load_pdf_ignores_case loader disk "Report" ".PDF"
           (Raise broken_reader)).
  - vm_compute. reflexivity.
  - vm_compute. reflexivity.
Defined.

Lemma empty_page_changes_nothing_witness :
  PDFLoader.load_pdf_body loader
    (Ok ([Ok "Paris is the capital of France."] ++ Ok "" ::
         [Ok "The Seine runs through it."]))
  = PDFLoader.load_pdf_body loader
      (Ok ([Ok "Paris is the capital of France."] ++
           [Ok "The Seine runs through it."])).
Proof.
  apply (LoaderExtras.empty_page_changes_nothing loader
           [Ok "Paris is the capital of France."]
           [Ok "The Seine runs through it."]).
  discriminate.
Defined.

Lemma setup_failure_kinds_witness :
  qa_chain failed_setup.1.2 = qa_chain ready /\
  failed_setup.1.2 = ready.
Proof.
  destruct (PipelineExtras.setup_failure_kinds (B:=vector_store_down)
              some_chunks ready failed_setup.1.2
              (start vector_store_down empty_world) failed_setup.2
              (Exn ValueError "Failed to create vector store: Connection error."))
    as (_ & Hchain & [(Hnil & _) | [(_ & Hself & _) | (_ & Hstore & inner & Hmsg & _)]]).
  - vm_compute. reflexivity.
  - discriminate.
  - split; assumption.
  - vm_compute in Hmsg. discriminate.
Defined.

Lemma setup_success_shape_witness :
  good_setup.1.1 =
    Ok (Some (chain_in (B:=healthy) (world (start healthy empty_world)))) /\
  String.length (name_in (B:=healthy) (world (start healthy empty_world))) <= 26.
Proof.
  destruct (PipelineExtras.setup_success_shape (B:=healthy)
              some_chunks fresh good_setup.1.2
              (start healthy empty_world) good_setup.2 (Some chain))
    as (_ & Hmade & _ & _ & _ & Hlen).
  - vm_compute. reflexivity.
  - split; [|exact Hlen]. rewrite <- Hmade. vm_compute. reflexivity.
Defined.

Lemma query_result_invariants_witness :
  source_count library_result = length (sources library_result) /\
  Forall (fun s => String.length s <= 203) (sources library_result).
Proof.
  destruct (PipelineExtras.query_result_invariants (B:=healthy)
              "What is this about?" ready asked_library.1.2
              (start healthy library) asked_library.2 library_result)
    as (Hcount & Hlen & _).
  - vm_compute. reflexivity.
  - split; assumption.
Defined.


Lemma clear_then_query_witness :
  exists self' v',
    clear_vector_store (B:=healthy) ready (start healthy library)
      = (Ok tt, self', v') /\
    world v' = {| collections := ∅; clock := 2 |} /\
    query_chain (B:=healthy) "What is this about?" self' v'
      = (Raise PipelineNotInitialized, self', v') /\
    get_vector_store_info (B:=healthy) self' v' = (Ok no_result, self', v') /\
    clear_vector_store (B:=healthy) self' v' = (Ok tt, self', v').
Proof.
  apply (PipelineExtras.clear_then_query (B:=healthy) ready
           (start healthy library) store 2 (tick library)
           {| collections := ∅; clock := 2 |} "What is this about?").
  - reflexivity.
  - vm_compute. reflexivity.
  - discriminate.
  - vm_compute. reflexivity.
Defined.

Lemma process_pdf_success_witness :
  Main.pdf_loaded processed.1.2 = true /\
  Main.current_pdf_name processed.1.2 = "paris.pdf" /\
  PDFLoader.total_chunks processed_infos.1 = length (Main.chunks processed.1.2).
Proof.
  destruct (AppExtras.process_pdf_success (B:=healthy)
              Chunker.RecursiveCharacterTextSplitter "/tmp/tmpk3v9x2" paris
              Main.initialize_session_state processed.1.2
              (start healthy empty_world) processed.2 processed_infos)
    as (_ & chunks & pipeline & _ & _ & Hsess & _ & _ & _ & Hcount).
  - vm_compute. reflexivity.
  - rewrite Hcount, Hsess. repeat split.
Defined.

End ExtraChecks.
